(** * open-tabs browser extension: entity stores, session and signed requests

    A shallow embedding of the local-first core of [tabs-ext]:
    the zustand stores for tabs, collections, spaces and the session
    ([shared/stores/*.ts]), the request signature ([shared/utils/signature.ts])
    and the request gateway ([shared/api/client.ts]).

    Conventions of the embedding.
    - A JavaScript [string] is a Rocq [string] holding its UTF-8 bytes.
    - A JavaScript [number] that the code only uses as a counter, an order or
      a millisecond instant is a [Z]; where the code adds or multiplies such
      numbers, or writes one out in a string, the rounding to a double is
      written out ([JS.to_Number], [JS.Number_toString]).
    - An optional property [f?: T] is an [option T]; [None] is [undefined].
    - [nowISO()], [Date.now()] and [generateUUID()] are read from the
      environment: the operations take their results as arguments.
    - A call to [chrome.storage.local] either succeeds or rejects; which one
      is part of the world an action runs in.
    - Every [async] action is run to completion before the next one starts. *)

From Stdlib Require Import ZArith NArith List String Ascii Bool Lia.
From Stdlib Require Import DecimalString HexadecimalString DecimalZ HexadecimalN.
From stdpp Require Import base option list strings.
From Stdlib Require Import Sorting.Sorted.

Local Open Scope string_scope.
Local Open Scope Z_scope.

(** ** JavaScript values *)

Module JS.

(** [!!s] for [s : string | null | undefined]: the empty string is falsy. *)
Definition truthy_string (s : option string) : bool :=
  match s with
  | None => false
  | Some EmptyString => false
  | Some _ => true
  end.

(** [!!n] for an integral [n : number | null | undefined]: zero is falsy. *)
Definition truthy_number (n : option Z) : bool :=
  match n with
  | None => false
  | Some 0 => false
  | Some _ => true
  end.

(** [!!b] for [b : boolean | undefined]. *)
Definition truthy_bool (b : option bool) : bool :=
  match b with
  | Some true => true
  | _ => false
  end.

(** [!!o] for [o : object | null | undefined]. *)
Definition truthy_object {A} (o : option A) : bool :=
  match o with
  | Some _ => true
  | None => false
  end.

(** [a || b] on strings, as in [input.icon || '📁']. *)
Definition or_string (a : option string) (b : string) : string :=
  match a with
  | Some s => if truthy_string a then s else b
  | None => b
  end.

(** [Number.MAX_SAFE_INTEGER], 2^53 - 1. *)
Definition MAX_SAFE_INTEGER : Z := 9007199254740991.

(** The integer [n] as a number: the IEEE 754 double nearest to it, the one
    with the even significand when two are equally near.  Up to 2^53 every
    integer is a double. *)
Definition to_Number (n : Z) : Z :=
  if Z.abs n <=? MAX_SAFE_INTEGER + 1 then n
  else
    let a := Z.abs n in
    let e := Z.log2 a - 52 in
    let m := Z.shiftr a e in
    let rest := a - Z.shiftl m e in
    let half := Z.shiftl 1 (e - 1) in
    let m' := if rest <? half then m
              else if half <? rest then m + 1
              else if Z.even m then m else m + 1 in
    Z.sgn n * Z.shiftl m' e.

(** [a + b] and [a * b] on integral numbers whose result is finite. *)
Definition Number_add (a b : Z) : Z := to_Number (a + b).
Definition Number_mul (a b : Z) : Z := to_Number (a * b).

(** Plain decimal notation, a leading minus sign for a negative integer. *)
Definition decimal (n : Z) : string :=
  DecimalString.NilZero.string_of_int (Z.to_int n).

(** The digits [Number::toString] selects for a number [x] above 2^53:
    among the multiples of a power of ten that read back as [x], that is,
    that lie in the rounding interval from [lo] to [hi] of [x], one of the
    greatest such power, and of two of them the one nearer to [x] (the one
    with the even last digit when both are equally near). *)
Definition nearest_multiple (x lo hi : Z) (closed : bool) (q : Z) : option Z :=
  let below := x / q * q in
  let above := below + q in
  let reads_back y :=
    if closed then (lo <=? y) && (y <=? hi) else (lo <? y) && (y <? hi) in
  match reads_back below, reads_back above with
  | true, true =>
      match (x - below) ?= (above - x) with
      | Lt => Some below
      | Gt => Some above
      | Eq => if Z.even (below / q) then Some below else Some above
      end
  | true, false => Some below
  | false, true => Some above
  | false, false => None
  end.

(** [q] is a power of ten that has a multiple reading back as [x], and
    [best] is that multiple. *)
Fixpoint shortest_from (x lo hi : Z) (closed : bool) (fuel : nat)
    (q best : Z) : Z * Z :=
  match fuel with
  | O => (best, q)
  | S fuel' =>
      match nearest_multiple x lo hi closed (10 * q) with
      | Some y => shortest_from x lo hi closed fuel' (10 * q) y
      | None => (best, q)
      end
  end.

Definition shortest (x : Z) : Z * Z :=
  let e := Z.log2 x - 52 in
  let m := Z.shiftr x e in
  let up := Z.shiftl 1 (e - 1) in
  let down := if m =? 4503599627370496 then Z.shiftl 1 (e - 2) else up in
  shortest_from x (x - down) (x + up) (Z.even m) (Z.to_nat (Z.log2 x)) 1 x.

(** [d.ddd...e+x] for the digits of a number of [n] integral digits. *)
Definition exponent_notation (digits : string) (n : Z) : string :=
  match digits with
  | String d EmptyString => String d ("e+" +:+ decimal (n - 1))
  | String d rest => String d ("." +:+ rest +:+ "e+" +:+ decimal (n - 1))
  | EmptyString => EmptyString
  end.

Definition Number_toString_above (x : Z) : string :=
  let '(y, q) := shortest x in
  let n := Z.of_nat (String.length (decimal y)) in
  if n <=? 21 then decimal y
  else exponent_notation (decimal (y / q)) n.

(** [String(n)] and [`${n}`] for an integral number, after
    [Number::toString] of ECMAScript: an integer up to 2^53 in absolute
    value is written out in plain decimal notation; above, the shortest
    digits that read back as the number are written, padded with zeros up to
    21 digits and in exponent notation from 10^21 on; a number too large for
    a double is [Infinity]. *)
Definition Number_toString (n : Z) : string :=
  let x := to_Number n in
  if Z.abs x <=? MAX_SAFE_INTEGER + 1 then decimal x
  else if 2 ^ 1024 <=? Z.abs x
  then (if x <? 0 then "-Infinity" else "Infinity")
  else if x <? 0 then "-" +:+ Number_toString_above (- x)
  else Number_toString_above x.

(** [n.toString(16)] for a non-negative integer: lowercase digits, no
    prefix and no leading zero. *)
Definition Number_toString16 (n : N) : string :=
  HexadecimalString.NilZero.string_of_uint (N.to_hex_uint n).

(** [s.padStart(n, c)] for a one-character pad string. *)
Definition padStart (n : nat) (c : ascii) (s : string) : string :=
  string_of_list_ascii (repeat c (n - String.length s)) +:+ s.

(** [new TextEncoder().encode(s)]: the UTF-8 bytes of [s]. *)
Definition TextEncoder_encode (s : string) : list N :=
  List.map N_of_ascii (list_ascii_of_string s).

(** [l.sort(compare)] for a comparator that returns the difference of two
    integral keys.  The sort of the platform is stable: of two elements that
    compare equal, the one that came first stays first. *)
Fixpoint sort_insert {A : Type} (compare : A -> A -> Z) (x : A) (l : list A)
  : list A :=
  match l with
  | [] => [x]
  | y :: rest =>
      if compare x y <=? 0 then x :: y :: rest
      else y :: sort_insert compare x rest
  end.

Definition Array_sort {A : Type} (compare : A -> A -> Z) (l : list A) : list A :=
  foldr (sort_insert compare) [] l.

End JS.

(** ** Entity types ([shared/types/*.ts]) *)

Module Tab.
Record meta_t := mk_meta {
  og_image : option string;
  og_description : option string
}.

Record t := mk {
  id : string;
  collection_id : string;
  title : string;
  url : string;
  favicon : option string;
  description : option string;
  order : Z;
  tags : option (list string);
  created_at : string;
  updated_at : string;
  synced_at : option string;
  is_deleted : option bool;
  meta : option meta_t
}.
End Tab.

Module CreateTabInput.
Record t := mk {
  collection_id : string;
  title : string;
  url : string;
  favicon : option string;
  description : option string;
  tags : option (list string)
}.
End CreateTabInput.

(** A patch object.  A key that is absent from the object literal is [None];
    a key that is present carries its value, which for an optional property
    of the entity may itself be [undefined]. *)
Module UpdateTabInput.
Record t := mk {
  title : option string;
  url : option string;
  favicon : option (option string);
  description : option (option string);
  order : option Z;
  tags : option (option (list string));
  collection_id : option string
}.
End UpdateTabInput.

Module Collection.
Inductive view_mode_t := list_view | grid_view.

Record t := mk {
  id : string;
  space_id : string;
  name : string;
  description : option string;
  icon : option string;
  color : option string;
  order : Z;
  view_mode : view_mode_t;
  created_at : string;
  updated_at : string;
  synced_at : option string;
  is_deleted : option bool
}.
End Collection.

Module CreateCollectionInput.
Record t := mk {
  space_id : string;
  name : string;
  description : option string;
  icon : option string;
  color : option string
}.
End CreateCollectionInput.

Module UpdateCollectionInput.
Record t := mk {
  name : option string;
  description : option (option string);
  icon : option (option string);
  color : option (option string);
  order : option Z;
  view_mode : option Collection.view_mode_t
}.
End UpdateCollectionInput.

Module Space.
Record t := mk {
  id : string;
  name : string;
  description : option string;
  icon : option string;
  color : option string;
  order : Z;
  is_default : option bool;
  created_at : string;
  updated_at : string;
  synced_at : option string;
  is_deleted : option bool
}.
End Space.

Module CreateSpaceInput.
Record t := mk {
  name : string;
  description : option string;
  icon : option string;
  color : option string
}.
End CreateSpaceInput.

Module UpdateSpaceInput.
Record t := mk {
  name : option string;
  description : option (option string);
  icon : option (option string);
  color : option (option string);
  order : option Z
}.
End UpdateSpaceInput.

Module User.
Inductive status_t := pending | active | suspended | deleted.

Record t := mk {
  uid : string;
  username : string;
  email : option string;
  display_name : option string;
  avatar_url : option string;
  status : status_t;
  created_at : string
}.
End User.

(** ** [chrome.storage.local] and the zustand store monad *)

(** The keys of [STORAGE_KEYS] that the stores read or write.  An absent key
    reads as [undefined]. *)
Module Storage.
Record t := mk {
  auth_token : option string;
  auth_user : option User.t;
  token_expires_at : option Z;
  spaces : option (list Space.t);
  collections : option (list Collection.t);
  tabs : option (list Tab.t);
  active_space_id : option string
}.

Definition empty : t := mk None None None None None None None.

Definition set_tabs (v : list Tab.t) (s : t) : t :=
  mk (auth_token s) (auth_user s) (token_expires_at s) (spaces s)
     (collections s) (Some v) (active_space_id s).

Definition set_collections (v : list Collection.t) (s : t) : t :=
  mk (auth_token s) (auth_user s) (token_expires_at s) (spaces s)
     (Some v) (tabs s) (active_space_id s).

Definition set_spaces (v : list Space.t) (s : t) : t :=
  mk (auth_token s) (auth_user s) (token_expires_at s) (Some v)
     (collections s) (tabs s) (active_space_id s).

Definition set_active_space_id (v : string) (s : t) : t :=
  mk (auth_token s) (auth_user s) (token_expires_at s) (spaces s)
     (collections s) (tabs s) (Some v).

Definition set_auth (u : User.t) (tok : string) (exp : Z) (s : t) : t :=
  mk (Some tok) (Some u) (Some exp) (spaces s)
     (collections s) (tabs s) (active_space_id s).

Definition remove_auth (s : t) : t :=
  mk None None None (spaces s) (collections s) (tabs s) (active_space_id s).
End Storage.

(** What a rejected promise or a [throw] carries. *)
Inductive Exn :=
  | Error (message : string)
  | StorageRejected.

Inductive Outcome (A : Type) :=
  | Returned (a : A)
  | Threw (e : Exn).
Arguments Returned {A} a.
Arguments Threw {A} e.

(** The world an action of a store runs in: the store's own state, the
    extension's local storage area, and whether calls to that area
    currently succeed. *)
Record World (S : Type) := mkWorld {
  state : S;
  local : Storage.t;
  local_ok : bool
}.
Arguments mkWorld {S} _ _ _.
Arguments state {S} _.
Arguments local {S} _.
Arguments local_ok {S} _.

Definition Action (S A : Type) : Type := World S -> Outcome A * World S.

Section Actions.
Context {S : Type}.

Definition ret {A} (a : A) : Action S A := fun w => (Returned a, w).

Definition bind {A B} (m : Action S A) (k : A -> Action S B) : Action S B :=
  fun w =>
    match m w with
    | (Returned a, w') => k a w'
    | (Threw e, w') => (Threw e, w')
    end.

Definition throw {A} (e : Exn) : Action S A := fun w => (Threw e, w).

(** [try { m } catch (error) { h }] *)
Definition try_catch {A} (m : Action S A) (h : Exn -> Action S A) : Action S A :=
  fun w =>
    match m w with
    | (Returned a, w') => (Returned a, w')
    | (Threw e, w') => h e w'
    end.

(** zustand's [get()] and [set(partial)]. *)
Definition get : Action S S := fun w => (Returned (state w), w).

Definition set (f : S -> S) : Action S unit :=
  fun w => (Returned tt, mkWorld (f (state w)) (local w) (local_ok w)).

(** [await chrome.storage.local.get(key)] *)
Definition storage_get {A} (read : Storage.t -> A) : Action S A :=
  fun w => if local_ok w then (Returned (read (local w)), w)
           else (Threw StorageRejected, w).

(** [await chrome.storage.local.set({...})] and [.remove([...])] *)
Definition storage_write (upd : Storage.t -> Storage.t) : Action S unit :=
  fun w => if local_ok w
           then (Returned tt, mkWorld (state w) (upd (local w)) (local_ok w))
           else (Threw StorageRejected, w).

(** A storage write whose promise is not awaited: a rejection is lost. *)
Definition storage_write_detached (upd : Storage.t -> Storage.t) : Action S unit :=
  fun w => if local_ok w
           then (Returned tt, mkWorld (state w) (upd (local w)) (local_ok w))
           else (Returned tt, w).
End Actions.

Notation "'let*' x := m 'in' k" := (bind m (fun x => k))
  (at level 10, x name, m at level 100, k at level 200).

(** The state an action leaves behind and what it returned or threw. *)
Definition outcome_of {S A} (r : Outcome A * World S) : Outcome A := fst r.
Definition world_of {S A} (r : Outcome A * World S) : World S := snd r.

(** ** The tab store ([shared/stores/tab-store.ts]) *)

Module TabStore.

Definition MAX_TABS_PER_COLLECTION : Z := 1000.

Record t := mk {
  tabs : list Tab.t;
  isLoading : bool;
  error : option string
}.

(** The initial state passed to [create]. *)
Definition initial : t := mk [] false None.

(** [!t.is_deleted] *)
Definition not_deleted (x : Tab.t) : bool :=
  negb (JS.truthy_bool (Tab.is_deleted x)).

Definition visible (x : Tab.t) : Prop := not_deleted x = true.

#[global] Instance visible_dec x : Decision (visible x).
Proof. unfold visible. apply _. Defined.

(** [{ ...tab, ...input, updated_at: now }] *)
Definition spread (tab : Tab.t) (input : UpdateTabInput.t) (now : string) : Tab.t :=
  {| Tab.id := Tab.id tab;
     Tab.collection_id :=
       default (Tab.collection_id tab) (UpdateTabInput.collection_id input);
     Tab.title := default (Tab.title tab) (UpdateTabInput.title input);
     Tab.url := default (Tab.url tab) (UpdateTabInput.url input);
     Tab.favicon := default (Tab.favicon tab) (UpdateTabInput.favicon input);
     Tab.description :=
       default (Tab.description tab) (UpdateTabInput.description input);
     Tab.order := default (Tab.order tab) (UpdateTabInput.order input);
     Tab.tags := default (Tab.tags tab) (UpdateTabInput.tags input);
     Tab.created_at := Tab.created_at tab;
     Tab.updated_at := now;
     Tab.synced_at := Tab.synced_at tab;
     Tab.is_deleted := Tab.is_deleted tab;
     Tab.meta := Tab.meta tab |}.

(** [{ ...t, is_deleted: true, updated_at: now }] *)
Definition tombstone (x : Tab.t) (now : string) : Tab.t :=
  {| Tab.id := Tab.id x;
     Tab.collection_id := Tab.collection_id x;
     Tab.title := Tab.title x;
     Tab.url := Tab.url x;
     Tab.favicon := Tab.favicon x;
     Tab.description := Tab.description x;
     Tab.order := Tab.order x;
     Tab.tags := Tab.tags x;
     Tab.created_at := Tab.created_at x;
     Tab.updated_at := now;
     Tab.synced_at := Tab.synced_at x;
     Tab.is_deleted := Some true;
     Tab.meta := Tab.meta x |}.

Definition with_tabs (v : list Tab.t) (s : t) : t :=
  mk v (isLoading s) (error s).

Definition in_collection (c : string) (l : list Tab.t) : list Tab.t :=
  filter (fun x => Tab.collection_id x = c) l.

(** The non-deleted tabs of a collection, as [getTabsByCollection] selects
    them. *)
Definition live_in_collection (c : string) (l : list Tab.t) : list Tab.t :=
  filter (fun x => Tab.collection_id x = c /\ visible x) l.

Definition capacity_message : string :=
  "Collection already has " +:+ JS.Number_toString MAX_TABS_PER_COLLECTION
    +:+ " tabs".

Definition target_capacity_message : string :=
  "Target collection already has "
    +:+ JS.Number_toString MAX_TABS_PER_COLLECTION +:+ " tabs".

Definition loadTabs : Action t unit :=
  let* _ := set (fun s => mk (tabs s) true None) in
  try_catch
    (let* result := storage_get Storage.tabs in
     let stored := default [] result in
     set (fun s => mk (filter visible stored) false (error s)))
    (fun _ => set (fun s => mk (tabs s) false (Some "Failed to load tabs"))).

Definition updateTab (id : string) (input : UpdateTabInput.t) (now : string)
  : Action t Tab.t :=
  let* s := get in
  match list_find (fun x => Tab.id x = id) (tabs s) with
  | None => throw (Error "Tab not found")
  | Some (index, existing) =>
      let updatedTab := spread existing input now in
      let updatedTabs := <[index := updatedTab]> (tabs s) in
      let* _ := storage_write (Storage.set_tabs updatedTabs) in
      let* _ := set (with_tabs updatedTabs) in
      ret updatedTab
  end.

(** The object literal [newTab] of [addTab]; [siblings] is
    [collectionTabs.length]. *)
Definition newTab (input : CreateTabInput.t) (uuid now : string)
    (siblings : nat) : Tab.t :=
  {| Tab.id := uuid;
     Tab.collection_id := CreateTabInput.collection_id input;
     Tab.title := CreateTabInput.title input;
     Tab.url := CreateTabInput.url input;
     Tab.favicon := CreateTabInput.favicon input;
     Tab.description := CreateTabInput.description input;
     Tab.order := Z.of_nat siblings;
     Tab.tags := CreateTabInput.tags input;
     Tab.created_at := now;
     Tab.updated_at := now;
     Tab.synced_at := None;
     Tab.is_deleted := None;
     Tab.meta := None |}.

Definition addTab (input : CreateTabInput.t) (uuid now : string)
  : Action t Tab.t :=
  let* s := get in
  let collectionTabs :=
    in_collection (CreateTabInput.collection_id input) (tabs s) in
  if MAX_TABS_PER_COLLECTION <=? Z.of_nat (length collectionTabs)
  then throw (Error capacity_message)
  else
    match list_find (fun x => Tab.url x = CreateTabInput.url input)
                    collectionTabs with
    | Some (_, existingTab) =>
        updateTab (Tab.id existingTab)
          (UpdateTabInput.mk (Some (CreateTabInput.title input)) None
             (Some (CreateTabInput.favicon input)) None None None None)
          now
    | None =>
        let newTab := newTab input uuid now (length collectionTabs) in
        let updatedTabs := (tabs s ++ [newTab])%list in
        let* _ := storage_write (Storage.set_tabs updatedTabs) in
        let* _ := set (with_tabs updatedTabs) in
        ret newTab
    end.

Definition deleteTab (id : string) (now : string) : Action t unit :=
  let* s := get in
  match list_find (fun x => Tab.id x = id) (tabs s) with
  | None => ret tt
  | Some _ =>
      let updatedTabs :=
        List.map (fun x => if decide (Tab.id x = id) then tombstone x now else x)
                 (tabs s) in
      let* _ := storage_write (Storage.set_tabs updatedTabs) in
      set (with_tabs (filter visible updatedTabs))
  end.

Definition moveTab (id targetCollectionId : string) (now : string)
  : Action t unit :=
  let* s := get in
  match list_find (fun x => Tab.id x = id) (tabs s) with
  | None => throw (Error "Tab not found")
  | Some _ =>
      let targetCollectionTabs := in_collection targetCollectionId (tabs s) in
      if MAX_TABS_PER_COLLECTION <=? Z.of_nat (length targetCollectionTabs)
      then throw (Error target_capacity_message)
      else
        let* _ := updateTab id
                    (UpdateTabInput.mk None None None None
                       (Some (Z.of_nat (length targetCollectionTabs)))
                       None (Some targetCollectionId))
                    now in
        ret tt
  end.

(** The published list is what a load of the stored list would publish. *)
Definition persisted (w : World t) : Prop :=
  filter visible (default [] (Storage.tabs (local w))) = tabs (state w).

(** [getTabsByCollection(collectionId)], a read of the store's state. *)
Definition getTabsByCollection (s : t) (collectionId : string) : list Tab.t :=
  JS.Array_sort (fun a b => Tab.order a - Tab.order b)
                (live_in_collection collectionId (tabs s)).

(** A batch entry: the input of an add with the identifier and the time
    stamp the environment hands out during that add. *)
Definition batch_url (b : CreateTabInput.t * string * string) : string :=
  CreateTabInput.url (fst (fst b)).

Definition batch_uuid (b : CreateTabInput.t * string * string) : string :=
  snd (fst b).

(** [for (const [input, uuid, now] of batch) await addTab(input)]: a
    sequence of adds, stopping at the first one that throws. *)
Fixpoint addTabs (batch : list (CreateTabInput.t * string * string))
  : Action t (list Tab.t) :=
  match batch with
  | [] => ret []
  | (input, uuid, now) :: rest =>
      let* added := addTab input uuid now in
      let* more := addTabs rest in
      ret (added :: more)
  end.

End TabStore.

(** ** The collection store ([shared/stores/collection-store.ts]) *)

Module CollectionStore.

Record t := mk {
  collections : list Collection.t;
  isLoading : bool;
  error : option string
}.

Definition initial : t := mk [] false None.

(** [!c.is_deleted] *)
Definition not_deleted (x : Collection.t) : bool :=
  negb (JS.truthy_bool (Collection.is_deleted x)).

Definition visible (x : Collection.t) : Prop := not_deleted x = true.

#[global] Instance visible_dec x : Decision (visible x).
Proof. unfold visible. apply _. Defined.

(** [{ ...collection, ...input, updated_at: now }] *)
Definition spread (c : Collection.t) (input : UpdateCollectionInput.t)
    (now : string) : Collection.t :=
  {| Collection.id := Collection.id c;
     Collection.space_id := Collection.space_id c;
     Collection.name :=
       default (Collection.name c) (UpdateCollectionInput.name input);
     Collection.description :=
       default (Collection.description c)
               (UpdateCollectionInput.description input);
     Collection.icon :=
       default (Collection.icon c) (UpdateCollectionInput.icon input);
     Collection.color :=
       default (Collection.color c) (UpdateCollectionInput.color input);
     Collection.order :=
       default (Collection.order c) (UpdateCollectionInput.order input);
     Collection.view_mode :=
       default (Collection.view_mode c)
               (UpdateCollectionInput.view_mode input);
     Collection.created_at := Collection.created_at c;
     Collection.updated_at := now;
     Collection.synced_at := Collection.synced_at c;
     Collection.is_deleted := Collection.is_deleted c |}.

(** [{ ...c, is_deleted: true, updated_at: now }] *)
Definition tombstone (c : Collection.t) (now : string) : Collection.t :=
  {| Collection.id := Collection.id c;
     Collection.space_id := Collection.space_id c;
     Collection.name := Collection.name c;
     Collection.description := Collection.description c;
     Collection.icon := Collection.icon c;
     Collection.color := Collection.color c;
     Collection.order := Collection.order c;
     Collection.view_mode := Collection.view_mode c;
     Collection.created_at := Collection.created_at c;
     Collection.updated_at := now;
     Collection.synced_at := Collection.synced_at c;
     Collection.is_deleted := Some true |}.

Definition with_collections (v : list Collection.t) (s : t) : t :=
  mk v (isLoading s) (error s).

Definition in_space (sp : string) (l : list Collection.t) : list Collection.t :=
  filter (fun x => Collection.space_id x = sp) l.

(** The non-deleted collections of a space, as [getCollectionsBySpace]
    selects them. *)
Definition live_in_space (sp : string) (l : list Collection.t)
  : list Collection.t :=
  filter (fun x => Collection.space_id x = sp /\ visible x) l.

(** The folder emoji U+1F4C1, as its UTF-8 bytes. *)
Definition folder_icon : string :=
  String (ascii_of_N 240) (String (ascii_of_N 159)
    (String (ascii_of_N 147) (String (ascii_of_N 129) EmptyString))).

Definition loadCollections : Action t unit :=
  let* _ := set (fun s => mk (collections s) true None) in
  try_catch
    (let* result := storage_get Storage.collections in
     let stored := default [] result in
     set (fun s => mk (filter visible stored) false (error s)))
    (fun _ =>
       set (fun s => mk (collections s) false
                        (Some "Failed to load collections"))).

(** The object literal [newCollection] of [addCollection]; [siblings] is
    [spaceCollections.length]. *)
Definition newCollection (input : CreateCollectionInput.t) (uuid now : string)
    (siblings : nat) : Collection.t :=
  {| Collection.id := uuid;
     Collection.space_id := CreateCollectionInput.space_id input;
     Collection.name := CreateCollectionInput.name input;
     Collection.description := CreateCollectionInput.description input;
     Collection.icon :=
       Some (JS.or_string (CreateCollectionInput.icon input) folder_icon);
     Collection.color := CreateCollectionInput.color input;
     Collection.order := Z.of_nat siblings;
     Collection.view_mode := Collection.list_view;
     Collection.created_at := now;
     Collection.updated_at := now;
     Collection.synced_at := None;
     Collection.is_deleted := None |}.

Definition addCollection (input : CreateCollectionInput.t) (uuid now : string)
  : Action t Collection.t :=
  let* s := get in
  let spaceCollections :=
    in_space (CreateCollectionInput.space_id input) (collections s) in
  let newCollection := newCollection input uuid now (length spaceCollections) in
  let updatedCollections := (collections s ++ [newCollection])%list in
  let* _ := storage_write (Storage.set_collections updatedCollections) in
  let* _ := set (with_collections updatedCollections) in
  ret newCollection.

Definition updateCollection (id : string) (input : UpdateCollectionInput.t)
    (now : string) : Action t Collection.t :=
  let* s := get in
  match list_find (fun x => Collection.id x = id) (collections s) with
  | None => throw (Error "Collection not found")
  | Some (index, existing) =>
      let updatedCollection := spread existing input now in
      let updatedCollections :=
        <[index := updatedCollection]> (collections s) in
      let* _ := storage_write (Storage.set_collections updatedCollections) in
      let* _ := set (with_collections updatedCollections) in
      ret updatedCollection
  end.

Definition deleteCollection (id : string) (now : string) : Action t unit :=
  let* s := get in
  match list_find (fun x => Collection.id x = id) (collections s) with
  | None => ret tt
  | Some _ =>
      let updatedCollections :=
        List.map (fun x => if decide (Collection.id x = id)
                           then tombstone x now else x)
                 (collections s) in
      let* _ := storage_write (Storage.set_collections updatedCollections) in
      set (with_collections (filter visible updatedCollections))
  end.

(** [getCollectionsBySpace(spaceId)], a read of the store's state. *)
Definition getCollectionsBySpace (s : t) (spaceId : string) : list Collection.t :=
  JS.Array_sort (fun a b => Collection.order a - Collection.order b)
                (live_in_space spaceId (collections s)).

End CollectionStore.

(** ** The space store ([shared/stores/space-store.ts]) *)

Module SpaceStore.

Record t := mk {
  spaces : list Space.t;
  activeSpaceId : option string;
  activeSpace : option Space.t;
  isLoading : bool;
  error : option string
}.

Definition initial : t := mk [] None None false None.

(** [!s.is_deleted] *)
Definition not_deleted (x : Space.t) : bool :=
  negb (JS.truthy_bool (Space.is_deleted x)).

Definition visible (x : Space.t) : Prop := not_deleted x = true.

#[global] Instance visible_dec x : Decision (visible x).
Proof. unfold visible. apply _. Defined.

(** [{ ...space, ...input, updated_at: now }] *)
Definition spread (sp : Space.t) (input : UpdateSpaceInput.t) (now : string)
  : Space.t :=
  {| Space.id := Space.id sp;
     Space.name := default (Space.name sp) (UpdateSpaceInput.name input);
     Space.description :=
       default (Space.description sp) (UpdateSpaceInput.description input);
     Space.icon := default (Space.icon sp) (UpdateSpaceInput.icon input);
     Space.color := default (Space.color sp) (UpdateSpaceInput.color input);
     Space.order := default (Space.order sp) (UpdateSpaceInput.order input);
     Space.is_default := Space.is_default sp;
     Space.created_at := Space.created_at sp;
     Space.updated_at := now;
     Space.synced_at := Space.synced_at sp;
     Space.is_deleted := Space.is_deleted sp |}.

(** [{ ...s, is_deleted: true, updated_at: now }] *)
Definition tombstone (sp : Space.t) (now : string) : Space.t :=
  {| Space.id := Space.id sp;
     Space.name := Space.name sp;
     Space.description := Space.description sp;
     Space.icon := Space.icon sp;
     Space.color := Space.color sp;
     Space.order := Space.order sp;
     Space.is_default := Space.is_default sp;
     Space.created_at := Space.created_at sp;
     Space.updated_at := now;
     Space.synced_at := Space.synced_at sp;
     Space.is_deleted := Some true |}.

Definition with_spaces (v : list Space.t) (s : t) : t :=
  mk v (activeSpaceId s) (activeSpace s) (isLoading s) (error s).

(** [l.find((s) => s.id === id)] where [id] may be [null] or [undefined]. *)
Definition find_by_id (id : option string) (l : list Space.t) : option Space.t :=
  match id with
  | Some i => snd <$> list_find (fun x => Space.id x = i) l
  | None => None
  end.

Definition loadSpaces : Action t unit :=
  let* _ := set (fun s => mk (spaces s) (activeSpaceId s) (activeSpace s)
                             true None) in
  try_catch
    (let* result :=
       storage_get (fun st => (Storage.spaces st, Storage.active_space_id st)) in
     let stored := default [] (fst result) in
     let active := snd result in
     set (fun s => mk (filter visible stored) active
                      (find_by_id active stored) false (error s)))
    (fun _ =>
       set (fun s => mk (spaces s) (activeSpaceId s) (activeSpace s) false
                        (Some "Failed to load spaces"))).

Definition setActiveSpace (id : string) : Action t unit :=
  let* s := get in
  let space := find_by_id (Some id) (spaces s) in
  let* _ := storage_write_detached (Storage.set_active_space_id id) in
  set (fun s => mk (spaces s) (Some id) space (isLoading s) (error s)).

Definition addSpace (input : CreateSpaceInput.t) (uuid now : string)
  : Action t Space.t :=
  let* s := get in
  let newSpace :=
    {| Space.id := uuid;
       Space.name := CreateSpaceInput.name input;
       Space.description := CreateSpaceInput.description input;
       Space.icon :=
         Some (JS.or_string (CreateSpaceInput.icon input)
                            CollectionStore.folder_icon);
       Space.color := CreateSpaceInput.color input;
       Space.order := Z.of_nat (length (spaces s));
       Space.is_default := None;
       Space.created_at := now;
       Space.updated_at := now;
       Space.synced_at := None;
       Space.is_deleted := None |} in
  let updatedSpaces := (spaces s ++ [newSpace])%list in
  let* _ := storage_write (Storage.set_spaces updatedSpaces) in
  let* _ := set (with_spaces updatedSpaces) in
  let* _ := (if Nat.eqb (length updatedSpaces) 1
             then setActiveSpace (Space.id newSpace)
             else ret tt) in
  ret newSpace.

Definition updateSpace (id : string) (input : UpdateSpaceInput.t)
    (now : string) : Action t Space.t :=
  let* s := get in
  match list_find (fun x => Space.id x = id) (spaces s) with
  | None => throw (Error "Space not found")
  | Some (index, existing) =>
      let updatedSpace := spread existing input now in
      let updatedSpaces := <[index := updatedSpace]> (spaces s) in
      let* _ := storage_write (Storage.set_spaces updatedSpaces) in
      let* _ := set (fun s' =>
                  mk updatedSpaces (activeSpaceId s')
                     (if decide (activeSpaceId s' = Some id)
                      then Some updatedSpace else activeSpace s')
                     (isLoading s') (error s')) in
      ret updatedSpace
  end.

Definition deleteSpace (id : string) (now : string) : Action t unit :=
  let* s := get in
  match list_find (fun x => Space.id x = id) (spaces s) with
  | None => ret tt
  | Some _ =>
      let updatedSpaces :=
        List.map (fun x => if decide (Space.id x = id)
                           then tombstone x now else x)
                 (spaces s) in
      let* _ := storage_write (Storage.set_spaces updatedSpaces) in
      let visibleSpaces := filter visible updatedSpaces in
      let* _ := set (with_spaces visibleSpaces) in
      if decide (activeSpaceId s = Some id)
      then
        match visibleSpaces with
        | nextSpace :: _ => setActiveSpace (Space.id nextSpace)
        | [] => set (fun s' => mk (spaces s') None None
                                  (isLoading s') (error s'))
        end
      else ret tt
  end.

End SpaceStore.

(** ** The session store ([shared/stores/auth-store.ts]) *)

Module AuthStore.

(** [AuthState] of [shared/types/auth.ts]. *)
Record t := mk {
  user : option User.t;
  access_token : option string;
  token_expires_at : option Z;
  is_authenticated : bool;
  is_loading : bool
}.

Definition initial : t := mk None None None false true.

Definition logout : Action t unit :=
  let* _ := storage_write Storage.remove_auth in
  set (fun s => mk None None None false (is_loading s)).

Definition loadAuth (Date_now : Z) : Action t unit :=
  let* _ := set (fun s => mk (user s) (access_token s) (token_expires_at s)
                             (is_authenticated s) true) in
  try_catch
    (let* result :=
       storage_get (fun st => (Storage.auth_user st, Storage.auth_token st,
                               Storage.token_expires_at st)) in
     let '(user, accessToken, tokenExpiresAt) := result in
     if JS.truthy_number tokenExpiresAt
        && ((Date_now >? default 0 tokenExpiresAt))
     then logout
     else
       set (fun _ => mk user accessToken tokenExpiresAt
                        (JS.truthy_object user && JS.truthy_string accessToken)
                        false))
    (fun _ => set (fun s => mk (user s) (access_token s) (token_expires_at s)
                               (is_authenticated s) false)).

Definition setAuth (user : User.t) (accessToken : string) (expiresIn : Z)
    (Date_now : Z) : Action t unit :=
  let tokenExpiresAt := JS.Number_add Date_now (JS.Number_mul expiresIn 1000) in
  let* _ := storage_write (Storage.set_auth user accessToken tokenExpiresAt) in
  set (fun s => mk (Some user) (Some accessToken) (Some tokenExpiresAt) true
                   (is_loading s)).

(** [isTokenExpired()]: reads the store's state and the clock. *)
Definition isTokenExpired (s : t) (Date_now : Z) : bool :=
  if negb (JS.truthy_number (token_expires_at s)) then true
  else Date_now >? default 0 (token_expires_at s).

End AuthStore.

(** ** The platform's [crypto.subtle] HMAC with SHA-256

    [crypto.subtle.sign('HMAC', key, data)] for a key imported with
    [{ name: 'HMAC', hash: 'SHA-256' }], written out after FIPS 180-4 and
    RFC 2104.  Bytes and 32-bit words are numbers of type [N]. *)

Module WebCrypto.
Local Open Scope N_scope.

Definition wrap32 (x : N) : N := x mod 4294967296.
Definition plus32 (x y : N) : N := wrap32 (x + y).
Definition rotr (n x : N) : N :=
  N.lor (N.shiftr x n) (wrap32 (N.shiftl x (32 - n))).
Definition not32 (x : N) : N := N.lxor x 0xffffffff.

Definition Ch (x y z : N) : N := N.lxor (N.land x y) (N.land (not32 x) z).
Definition Maj (x y z : N) : N :=
  N.lxor (N.lxor (N.land x y) (N.land x z)) (N.land y z).
Definition big_sigma0 (x : N) : N :=
  N.lxor (N.lxor (rotr 2 x) (rotr 13 x)) (rotr 22 x).
Definition big_sigma1 (x : N) : N :=
  N.lxor (N.lxor (rotr 6 x) (rotr 11 x)) (rotr 25 x).
Definition small_sigma0 (x : N) : N :=
  N.lxor (N.lxor (rotr 7 x) (rotr 18 x)) (N.shiftr x 3).
Definition small_sigma1 (x : N) : N :=
  N.lxor (N.lxor (rotr 17 x) (rotr 19 x)) (N.shiftr x 10).

(** The constants of sections 4.2.2 and 5.3.3 are the first 32 bits of the
    fractional parts of the cube roots, respectively the square roots, of
    the first primes; they are computed here from that definition. *)
Definition is_prime (n : nat) : bool :=
  forallb (fun d => negb (Nat.eqb (n mod d) 0)) (seq 2 (n - 2)).

Definition first_primes (count : nat) : list N :=
  List.map N.of_nat (firstn count (List.filter is_prime (seq 2 310))).

(** The largest [r] in the interval from [lo] up to [lo + 2 ^ steps - 1]
    with [r ^ 3 <= n], by bisection. *)
Fixpoint cube_root_from (steps : nat) (lo n : N) : N :=
  match steps with
  | O => lo
  | S steps' =>
      let mid := lo + 2 ^ N.of_nat steps' in
      if mid * mid * mid <=? n
      then cube_root_from steps' mid n
      else cube_root_from steps' lo n
  end.

Definition round_constants : list N :=
  List.map (fun p => wrap32 (cube_root_from 40 0 (N.shiftl p 96)))
           (first_primes 64).

(** The eight working variables a .. h. *)
Record regs := mk_regs {
  ra : N; rb : N; rc : N; rd : N; re : N; rf : N; rg : N; rh : N
}.

Definition regs_of_list (l : list N) : regs :=
  mk_regs (nth 0 l 0) (nth 1 l 0) (nth 2 l 0) (nth 3 l 0)
          (nth 4 l 0) (nth 5 l 0) (nth 6 l 0) (nth 7 l 0).

Definition initial_hash : regs :=
  regs_of_list
    (List.map (fun p => wrap32 (N.sqrt (N.shiftl p 64))) (first_primes 8)).

Definition big_endian (width : nat) (x : N) : list N :=
  List.map (fun i => N.shiftr x (8 * N.of_nat i) mod 256)
           (rev (seq 0 width)).

Definition word_of_bytes (bs : list N) : N :=
  fold_left (fun acc b => acc * 256 + b) bs 0.

(** Section 5.1.1: a one bit, zero bits up to 448 modulo 512, then the
    length in bits as a 64-bit big-endian number. *)
Definition pad (msg : list N) : list N :=
  let len := N.of_nat (length msg) in
  let zeros := N.to_nat ((119 - len mod 64) mod 64) in
  (msg ++ [0x80] ++ repeat 0 zeros ++ big_endian 8 (8 * len))%list.

Fixpoint chunks (fuel size : nat) (l : list N) : list (list N) :=
  match fuel, l with
  | O, _ => []
  | _, [] => []
  | S fuel', _ => firstn size l :: chunks fuel' size (skipn size l)
  end.

(** Section 6.2.2 step 1: the message schedule of one block. *)
Fixpoint extend_schedule (n : nat) (w : list N) : list N :=
  match n with
  | O => w
  | S n' =>
      let t := length w in
      let back i := nth (t - i) w 0 in
      let next := plus32 (plus32 (small_sigma1 (back 2%nat)) (back 7%nat))
                         (plus32 (small_sigma0 (back 15%nat)) (back 16%nat)) in
      extend_schedule n' (w ++ [next])%list
  end.

Definition schedule (block : list N) : list N :=
  extend_schedule 48 (List.map word_of_bytes (chunks 16 4 block)).

(** Section 6.2.2 step 3: one round. *)
Definition round (r : regs) (kw : N * N) : regs :=
  let t1 := plus32 (plus32 (plus32 (rh r) (big_sigma1 (re r)))
                           (plus32 (Ch (re r) (rf r) (rg r)) (fst kw)))
                   (snd kw) in
  let t2 := plus32 (big_sigma0 (ra r)) (Maj (ra r) (rb r) (rc r)) in
  mk_regs (plus32 t1 t2) (ra r) (rb r) (rc r)
          (plus32 (rd r) t1) (re r) (rf r) (rg r).

Definition compress (h : regs) (block : list N) : regs :=
  let r := fold_left round (combine round_constants (schedule block)) h in
  mk_regs (plus32 (ra h) (ra r)) (plus32 (rb h) (rb r))
          (plus32 (rc h) (rc r)) (plus32 (rd h) (rd r))
          (plus32 (re h) (re r)) (plus32 (rf h) (rf r))
          (plus32 (rg h) (rg r)) (plus32 (rh h) (rh r)).

Definition digest_bytes (h : regs) : list N :=
  (big_endian 4 (ra h) ++ big_endian 4 (rb h) ++ big_endian 4 (rc h)
   ++ big_endian 4 (rd h) ++ big_endian 4 (re h) ++ big_endian 4 (rf h)
   ++ big_endian 4 (rg h) ++ big_endian 4 (rh h))%list.

Definition sha256 (msg : list N) : list N :=
  let padded := pad msg in
  digest_bytes (fold_left compress (chunks (length padded) 64 padded)
                          initial_hash).

(** RFC 2104 with block size 64: a longer key is hashed first, then the
    key is filled with zero bytes. *)
Definition hmac_sha256 (key msg : list N) : list N :=
  let k0 := if (64 <? length key)%nat then sha256 key else key in
  let k := (k0 ++ repeat 0 (64 - length k0))%list in
  sha256 (List.map (N.lxor 0x5c) k
          ++ sha256 (List.map (N.lxor 0x36) k ++ msg))%list.

End WebCrypto.

(** ** The clock helpers ([shared/utils/date.ts]) *)

Module DateUtil.

(** [Math.floor(Date.now() / 1000)]: for a clock reading, which is a safe
    integer, the floor of the quotient of the two doubles is the integer
    quotient. *)
Definition nowUnix (Date_now : Z) : Z := Date_now / 1000.

End DateUtil.

(** ** The request signature ([shared/utils/signature.ts]) *)

Module Signature.

(** [import.meta.env.VITE_SIGNATURE_SECRET || 'default_secret_key'] *)
Definition SIGNATURE_SECRET (VITE_SIGNATURE_SECRET : option string) : string :=
  JS.or_string VITE_SIGNATURE_SECRET "default_secret_key".

(** [(b) => b.toString(16).padStart(2, '0')] *)
Definition byte_to_hex (b : N) : string :=
  JS.padStart 2 "0"%char (JS.Number_toString16 b).

Definition generateSignature (VITE_SIGNATURE_SECRET : option string)
    (email nonce : string) (authAt : Z) (purpose : string) : string :=
  let message :=
    email +:+ ":" +:+ nonce +:+ ":" +:+ JS.Number_toString authAt
          +:+ ":" +:+ purpose in
  let keyData := JS.TextEncoder_encode (SIGNATURE_SECRET VITE_SIGNATURE_SECRET) in
  let messageData := JS.TextEncoder_encode message in
  let signature := WebCrypto.hmac_sha256 keyData messageData in
  String.concat "" (List.map byte_to_hex signature).

End Signature.

(** What the signature is specified to be, in the words of the protocol:
    a canonical string joined by colons, and the Base16 encoding of the
    message authentication code in lowercase digits. *)

Module SignatureSpec.

Definition lower_hex_alphabet : list ascii :=
  list_ascii_of_string "0123456789abcdef".

Definition hex_digit (d : N) : ascii :=
  nth (N.to_nat d) lower_hex_alphabet "0"%char.

Definition hex_lower (bytes : list N) : string :=
  string_of_list_ascii
    (flat_map (fun b => [hex_digit (b / 16); hex_digit (b mod 16)]) bytes).

Definition is_lower_hex (c : ascii) : Prop := In c lower_hex_alphabet.

(** Reading a decimal numeral back as an integer. *)
Definition parse_decimal (s : string) : option Z :=
  option_map Z.of_int (DecimalString.NilZero.int_of_string s).

(** The decimal numeral of an integer. *)
Definition decimal_numeral (n : Z) : string :=
  DecimalString.NilZero.string_of_int (Z.to_int n).

(** The shared signing secret: the value the build is configured with, and
    the literal [default_secret_key] when none or an empty one is
    configured. *)
Definition signing_secret (configured : option string) : string :=
  match configured with
  | Some (String c rest) => String c rest
  | Some EmptyString | None => "default_secret_key"
  end.

Definition canonical_string (email nonce : string) (authAt : Z)
    (purpose : string) : string :=
  String.concat ":" [email; nonce; decimal_numeral authAt; purpose].

End SignatureSpec.

(** ** The request gateway ([shared/api/client.ts]) *)

Module ApiClient.

Record RequestOptions := mk_options {
  requiresAuth : option bool
}.

(** The second argument of [fetch]. *)
Record FetchInit := mk_init {
  method : string;
  headers : list (string * string);
  body : option string
}.

Record NetworkCall := mk_call {
  url : string;
  init : FetchInit
}.

(** [headers.set(name, value)]: replaces the entry of that name. *)
Definition headers_set (name value : string) (h : list (string * string))
  : list (string * string) :=
  (filter (fun kv => fst kv <> name) h ++ [(name, value)])%list.

(** [headers.get(name)] *)
Definition headers_get (name : string) (h : list (string * string))
  : option string :=
  snd <$> (snd <$> list_find (fun kv => fst kv = name) h).

Section Gateway.
(** JSON values, their truthiness, [JSON.stringify], the literals [{}] and
    [{ message: m }]. *)
Context {Json : Type}.
Variable truthy : Json -> bool.
Variable JSON_stringify : Json -> string.
Variable empty_object : Json.
Variable message_object : string -> Json.

(** What [fetch] resolves to: the status and what [response.json()]
    resolves to, [None] when it rejects. *)
Record Response := mk_response {
  status : Z;
  json : option Json
}.

(** [response.ok] *)
Definition ok (r : Response) : bool :=
  (200 <=? status r) && (status r <=? 299).

Inductive Thrown :=
  | ApiError (status : Z) (data : Json)
  | FetchRejected
  | JsonRejected.

(** The network: [None] when the promise of [fetch] rejects. *)
Variable fetch : NetworkCall -> option Response.

(** [ApiClient.request]: what it resolves to or throws, and the network
    calls it issued. *)
Definition request (baseUrl method endpoint : string) (data : option Json)
    (options : RequestOptions) (auth : AuthStore.t) (Date_now : Z)
  : (Thrown + Json) * list NetworkCall :=
  let url := baseUrl +:+ endpoint in
  let headers := [("Content-Type", "application/json")] in
  let gate :=
    if JS.truthy_bool (requiresAuth options)
    then
      if negb (JS.truthy_string (AuthStore.access_token auth))
         || AuthStore.isTokenExpired auth Date_now
      then inl (ApiError 401 (message_object "Not authenticated"))
      else inr (headers_set "Authorization"
                  ("Bearer " +:+ default "" (AuthStore.access_token auth))
                  headers)
    else inr headers in
  match gate with
  | inl e => (inl e, [])
  | inr headers =>
      let call :=
        mk_call url
          (mk_init method headers
             (match data with
              | Some d => if truthy d then Some (JSON_stringify d) else None
              | None => None
              end)) in
      match fetch call with
      | None => (inl FetchRejected, [call])
      | Some response =>
          if negb (ok response)
          then (inl (ApiError (status response)
                              (default empty_object (json response))),
                [call])
          else if status response =? 204
          then (inr empty_object, [call])
          else match json response with
               | Some v => (inr v, [call])
               | None => (inl JsonRejected, [call])
               end
      end
  end.
(** The five verbs.  [get] and [delete] pass [undefined] as data; an omitted
    [options] argument is the default [{}]. *)
Definition get (baseUrl endpoint : string) (options : RequestOptions) :=
  request baseUrl "GET" endpoint None options.

Definition post (baseUrl endpoint : string) (data : Json)
    (options : RequestOptions) :=
  request baseUrl "POST" endpoint (Some data) options.

Definition put (baseUrl endpoint : string) (data : Json)
    (options : RequestOptions) :=
  request baseUrl "PUT" endpoint (Some data) options.

Definition patch (baseUrl endpoint : string) (data : Json)
    (options : RequestOptions) :=
  request baseUrl "PATCH" endpoint (Some data) options.

Definition delete (baseUrl endpoint : string) (options : RequestOptions) :=
  request baseUrl "DELETE" endpoint None options.
End Gateway.

(** [{}] as the [options] argument. *)
Definition no_options : RequestOptions := mk_options None.

End ApiClient.

(** ** JSON values and the authentication flows ([shared/api/auth.ts]) *)

Module Json.

#[local] Set Warnings "-register-all".
Inductive t :=
  | Null
  | Bool (b : bool)
  | Number (n : Z)
  | String (s : string)
  | Object (fields : list (string * t)).

(** [!!v] *)
Definition truthy (v : t) : bool :=
  match v with
  | Null => false
  | Bool b => b
  | Number n => negb (n =? 0)
  | String s => JS.truthy_string (Some s)
  | Object _ => true
  end.

(** [v[key]] on an object literal: the value of the first field of that
    name. *)
Definition field (key : string) (v : t) : option t :=
  match v with
  | Object fields => snd <$> (snd <$> list_find (fun kv => fst kv = key) fields)
  | _ => None
  end.

End Json.

Module AuthApi.

(** [AUTH_ENDPOINTS] of [shared/constants/api.ts]. *)
Definition SEND_VERIFICATION_CODE : string := "/auth/v1/verification-code/send".
Definition REGISTER : string := "/auth/v1/register".
Definition LOGIN_WITH_CODE : string := "/auth/v1/login/verification-code".

(** [import.meta.env.VITE_API_BASE_URL || 'http://localhost:8000'] *)
Definition API_BASE_URL (VITE_API_BASE_URL : option string) : string :=
  JS.or_string VITE_API_BASE_URL "http://localhost:8000".

Inductive purpose_t := for_register | for_login | for_reset_password.

Definition purpose_string (p : purpose_t) : string :=
  match p with
  | for_register => "register"
  | for_login => "login"
  | for_reset_password => "reset_password"
  end.

Section Flows.
(** The build-time configuration, [JSON.stringify], the network, the session
    and what [generateNonce()] and [Date.now()] return during the call. *)
Variable VITE_API_BASE_URL : option string.
Variable VITE_SIGNATURE_SECRET : option string.
Variable JSON_stringify : Json.t -> string.
Variable fetch : ApiClient.NetworkCall -> option (@ApiClient.Response Json.t).
Variable auth : AuthStore.t.
Variable nonce : string.
Variable Date_now : Z.

(** [apiClient.post(endpoint, data)] on the exported client. *)
Definition apiClient_post (endpoint : string) (data : Json.t) :=
  ApiClient.post Json.truthy JSON_stringify (Json.Object [])
    (fun m => Json.Object [("message", Json.String m)]) fetch
    (API_BASE_URL VITE_API_BASE_URL) endpoint data ApiClient.no_options
    auth Date_now.

Definition sendVerificationCode (email : string) (purpose : purpose_t)
  : (ApiClient.Thrown + unit) * list ApiClient.NetworkCall :=
  let authAt := DateUtil.nowUnix Date_now in
  let signature :=
    Signature.generateSignature VITE_SIGNATURE_SECRET email nonce authAt
                                (purpose_string purpose) in
  let r :=
    apiClient_post SEND_VERIFICATION_CODE
      (Json.Object [ ("email", Json.String email);
                     ("purpose", Json.String (purpose_string purpose));
                     ("nonce", Json.String nonce);
                     ("auth_at", Json.Number authAt);
                     ("signature", Json.String signature) ]) in
  (match fst r with
   | inl e => inl e
   | inr _ => inr tt
   end, snd r).

Definition loginWithVerificationCode (email code : string)
  : (ApiClient.Thrown + Json.t) * list ApiClient.NetworkCall :=
  let authAt := DateUtil.nowUnix Date_now in
  let signature :=
    Signature.generateSignature VITE_SIGNATURE_SECRET email nonce authAt
                                "login" in
  apiClient_post LOGIN_WITH_CODE
    (Json.Object [ ("email", Json.String email);
                   ("code", Json.String code);
                   ("nonce", Json.String nonce);
                   ("auth_at", Json.Number authAt);
                   ("signature", Json.String signature) ]).

Definition register (email code password : string)
  : (ApiClient.Thrown + Json.t) * list ApiClient.NetworkCall :=
  let authAt := DateUtil.nowUnix Date_now in
  let signature :=
    Signature.generateSignature VITE_SIGNATURE_SECRET email nonce authAt
                                "register" in
  apiClient_post REGISTER
    (Json.Object [ ("email", Json.String email);
                   ("code", Json.String code);
                   ("password", Json.String password);
                   ("nonce", Json.String nonce);
                   ("auth_at", Json.Number authAt);
                   ("signature", Json.String signature) ]).
End Flows.

End AuthApi.

(** ** The popup's save form ([popup/components/SaveTabForm.tsx]) *)

Module SaveTabForm.

(** The fields of [chrome.tabs.Tab] that the form reads. *)
Record ChromeTab := mk_tab {
  url : option string;
  title : option string;
  favIconUrl : option string
}.

(** The form's [useState] cells that [handleSave] writes. *)
Record t := mk {
  isSaving : bool;
  saveSuccess : bool
}.

(** [handleSave], up to the moment its promise settles; the timer that
    resets [saveSuccess] two seconds later is a later event. *)
Definition handleSave (currentTab : option ChromeTab)
    (selectedCollectionId : string) (uuid now : string) (form : t)
  : Action TabStore.t t :=
  let currentUrl := currentTab ≫= url in
  if negb (JS.truthy_string currentUrl)
     || negb (JS.truthy_string (Some selectedCollectionId))
  then ret form
  else
    try_catch
      (let* _ :=
         TabStore.addTab
           (CreateTabInput.mk selectedCollectionId
              (JS.or_string (currentTab ≫= title) "Untitled")
              (default "" currentUrl)
              (currentTab ≫= favIconUrl)
              None None)
           uuid now in
       ret (mk false true))
      (fun _ => ret (mk false (saveSuccess form))).

End SaveTabForm.

(** ** The three entity stores over one storage area *)

Module App.

Record t := mk {
  tabStore : TabStore.t;
  collectionStore : CollectionStore.t;
  spaceStore : SpaceStore.t;
  chrome_local : Storage.t;
  chrome_ok : bool
}.

(** The extension right after its modules are evaluated: every store in its
    initial state, over whatever the storage area holds. *)
Definition boot (stored : Storage.t) (ok : bool) : t :=
  mk TabStore.initial CollectionStore.initial SpaceStore.initial stored ok.

Inductive Op :=
  | loadTabs
  | addTab (input : CreateTabInput.t) (uuid now : string)
  | updateTab (id : string) (input : UpdateTabInput.t) (now : string)
  | deleteTab (id now : string)
  | moveTab (id targetCollectionId now : string)
  | loadCollections
  | addCollection (input : CreateCollectionInput.t) (uuid now : string)
  | updateCollection (id : string) (input : UpdateCollectionInput.t)
                     (now : string)
  | deleteCollection (id now : string)
  | loadSpaces
  | addSpace (input : CreateSpaceInput.t) (uuid now : string)
  | updateSpace (id : string) (input : UpdateSpaceInput.t) (now : string)
  | deleteSpace (id now : string)
  | setActiveSpace (id : string)
  (** the environment: storage calls start or stop failing, and another
      extension page rewrites the storage area *)
  | storage_health (ok : bool)
  | foreign_write (stored : Storage.t).

Definition on_tabs {A} (m : Action TabStore.t A) (a : t) : t :=
  let w := snd (m (mkWorld (tabStore a) (chrome_local a) (chrome_ok a))) in
  mk (state w) (collectionStore a) (spaceStore a) (local w) (chrome_ok a).

Definition on_collections {A} (m : Action CollectionStore.t A) (a : t) : t :=
  let w := snd (m (mkWorld (collectionStore a) (chrome_local a) (chrome_ok a))) in
  mk (tabStore a) (state w) (spaceStore a) (local w) (chrome_ok a).

Definition on_spaces {A} (m : Action SpaceStore.t A) (a : t) : t :=
  let w := snd (m (mkWorld (spaceStore a) (chrome_local a) (chrome_ok a))) in
  mk (tabStore a) (collectionStore a) (state w) (local w) (chrome_ok a).

Definition step (a : t) (op : Op) : t :=
  match op with
  | loadTabs => on_tabs TabStore.loadTabs a
  | addTab input uuid now => on_tabs (TabStore.addTab input uuid now) a
  | updateTab id input now => on_tabs (TabStore.updateTab id input now) a
  | deleteTab id now => on_tabs (TabStore.deleteTab id now) a
  | moveTab id target now => on_tabs (TabStore.moveTab id target now) a
  | loadCollections => on_collections CollectionStore.loadCollections a
  | addCollection input uuid now =>
      on_collections (CollectionStore.addCollection input uuid now) a
  | updateCollection id input now =>
      on_collections (CollectionStore.updateCollection id input now) a
  | deleteCollection id now =>
      on_collections (CollectionStore.deleteCollection id now) a
  | loadSpaces => on_spaces SpaceStore.loadSpaces a
  | addSpace input uuid now => on_spaces (SpaceStore.addSpace input uuid now) a
  | updateSpace id input now =>
      on_spaces (SpaceStore.updateSpace id input now) a
  | deleteSpace id now => on_spaces (SpaceStore.deleteSpace id now) a
  | setActiveSpace id => on_spaces (SpaceStore.setActiveSpace id) a
  | storage_health ok =>
      mk (tabStore a) (collectionStore a) (spaceStore a) (chrome_local a) ok
  | foreign_write stored =>
      mk (tabStore a) (collectionStore a) (spaceStore a) stored (chrome_ok a)
  end.

Definition run (ops : list Op) (a : t) : t := fold_left step ops a.

(** No record with [is_deleted = true] in any published list. *)
Definition published_clean (a : t) : Prop :=
  Forall TabStore.visible (TabStore.tabs (tabStore a))
  /\ Forall CollectionStore.visible
            (CollectionStore.collections (collectionStore a))
  /\ Forall SpaceStore.visible (SpaceStore.spaces (spaceStore a)).

End App.

(** ** Sample data *)

Module Sample.

Definition tab (n : nat) (collection : string) : Tab.t :=
  let k := JS.Number_toString (Z.of_nat n) in
  {| Tab.id := "tab-" +:+ k;
     Tab.collection_id := collection;
     Tab.title := "Page " +:+ k;
     Tab.url := "https://example.test/" +:+ k;
     Tab.favicon := Some "https://example.test/favicon.ico";
     Tab.description := None;
     Tab.order := Z.of_nat n;
     Tab.tags := None;
     Tab.created_at := "2024-01-01T00:00:00.000Z";
     Tab.updated_at := "2024-01-01T00:00:00.000Z";
     Tab.synced_at := None;
     Tab.is_deleted := None;
     Tab.meta := None |}.

Definition tabs (count : nat) (collection : string) : list Tab.t :=
  List.map (fun n => tab n collection) (seq 0 count).

(** A tab store that holds [count] tabs, all in the collection "research",
    persisted as they are. *)
Definition world (count : nat) : World TabStore.t :=
  mkWorld (TabStore.mk (tabs count "research") false None)
          (Storage.set_tabs (tabs count "research") Storage.empty)
          true.

Definition new_tab (k : string) (title : string) : CreateTabInput.t :=
  CreateTabInput.mk "research" title ("https://example.test/" +:+ k)
                    None None None.

Definition new_collection : CreateCollectionInput.t :=
  CreateCollectionInput.mk "work" "Research" None None None.


Definition rename (title : string) : UpdateTabInput.t :=
  UpdateTabInput.mk (Some title) None None None None None None.

(** A tab store right after start, over an empty storage area. *)
Definition fresh : World TabStore.t :=
  mkWorld TabStore.initial Storage.empty true.

(** Three adds of new URLs to the collection "research". *)
Definition batch : list (CreateTabInput.t * string * string) :=
  [ (new_tab "a" "A", "id-a", "2024-02-01T10:00:00.000Z");
    (new_tab "b" "B", "id-b", "2024-02-01T10:00:01.000Z");
    (new_tab "c" "C", "id-c", "2024-02-01T10:00:02.000Z") ].


Definition user : User.t :=
  User.mk "u-1" "ada" (Some "ada@example.test") None None User.active
          "2024-01-01T00:00:00.000Z".

(** A session store right after start, over an empty storage area. *)
Definition signed_out : World AuthStore.t :=
  mkWorld AuthStore.initial Storage.empty true.


(** A network that answers every call with status 200 and an empty object. *)
Definition network_ok (call : ApiClient.NetworkCall)
  : option (@ApiClient.Response Json.t) :=
  Some (ApiClient.mk_response 200 (Some (Json.Object []))).

(** A network that answers every call with status 422 and no JSON body. *)
Definition network_unprocessable (call : ApiClient.NetworkCall)
  : option (@ApiClient.Response Json.t) :=
  Some (ApiClient.mk_response 422 None).

Definition stringify_stub (v : Json.t) : string := "{...}".

Definition space (k : string) (position : Z) : Space.t :=
  Space.mk ("space-" +:+ k) ("Space " +:+ k) None None None position None
           "2024-01-01T00:00:00.000Z" "2024-01-01T00:00:00.000Z" None None.

(** A space store that holds the given spaces, persisted as they are, with
    the first one active. *)
Definition space_world (l : list Space.t) : World SpaceStore.t :=
  mkWorld (SpaceStore.mk l (Space.id <$> head l) (head l) false None)
          (match head l with
           | Some x => Storage.set_active_space_id (Space.id x)
                         (Storage.set_spaces l Storage.empty)
           | None => Storage.set_spaces l Storage.empty
           end)
          true.

Definition page (k : string) (title : string) : SaveTabForm.ChromeTab :=
  SaveTabForm.mk_tab (Some ("https://example.test/" +:+ k)) (Some title) None.

End Sample.

(** * Properties *)

(** ** Running actions *)

Ltac run_action :=
  unfold bind, try_catch, get, set, storage_get, storage_write,
    storage_write_detached, throw, ret in *; simpl in *.

(** ** The published list holds no tombstone *)

Section TabStoreVisible.
Import TabStore.

Let clean (w : World t) : Prop := Forall visible (tabs (state w)).

Lemma spread_visible x input now : visible x -> visible (spread x input now).
Proof. unfold visible, not_deleted. simpl. auto. Qed.

Lemma loadTabs_clean w : clean w -> clean (snd (loadTabs w)).
Proof.
  unfold clean, loadTabs. run_action. intros H.
  destruct (local_ok w); simpl; [|assumption].
  apply Forall_forall. intros x Hx. apply list_elem_of_filter in Hx. tauto.
Qed.

Lemma updateTab_clean id input now w :
  clean w -> clean (snd (updateTab id input now w)).
Proof.
  unfold clean, updateTab. run_action. intros H.
  destruct (list_find _ _) as [[i x]|] eqn:E; simpl; [|assumption].
  destruct (local_ok w); simpl; [|assumption].
  apply list_find_Some in E as (Hi & _ & _).
  apply Forall_insert; [assumption|].
  apply spread_visible. eapply Forall_lookup_1; eauto.
Qed.

Lemma addTab_clean input uuid now w :
  clean w -> clean (snd (addTab input uuid now w)).
Proof.
  intros H. unfold addTab, bind at 1, get. simpl.
  destruct (_ <=? _); [exact H|].
  destruct (list_find _ _) as [[i x]|]; [apply updateTab_clean; exact H|].
  unfold clean in *. run_action.
  destruct (local_ok w); simpl; [|assumption].
  apply Forall_app. split; [assumption|]. repeat constructor.
Qed.

Lemma deleteTab_clean id now w : clean w -> clean (snd (deleteTab id now w)).
Proof.
  unfold clean, deleteTab. run_action. intros H.
  destruct (list_find _ _); simpl; [|assumption].
  destruct (local_ok w); simpl; [|assumption].
  apply Forall_forall. intros x Hx. apply list_elem_of_filter in Hx. tauto.
Qed.

Lemma moveTab_clean id target now w :
  clean w -> clean (snd (moveTab id target now w)).
Proof.
  intros H. unfold moveTab, bind at 1, get. simpl.
  destruct (list_find _ _); [|exact H].
  destruct (_ <=? _); [exact H|].
  pose proof (updateTab_clean id
    (UpdateTabInput.mk None None None None
       (Some (Z.of_nat (length (in_collection target (tabs (state w))))))
       None (Some target)) now w H) as H'.
  unfold bind. destruct (updateTab _ _ _ w) as [[r|e] w']; exact H'.
Qed.
End TabStoreVisible.

Section CollectionStoreVisible.
Import CollectionStore.

Let clean (w : World t) : Prop := Forall visible (collections (state w)).

Lemma loadCollections_clean w : clean w -> clean (snd (loadCollections w)).
Proof.
  unfold clean, loadCollections. run_action. intros H.
  destruct (local_ok w); simpl; [|assumption].
  apply Forall_forall. intros x Hx. apply list_elem_of_filter in Hx. tauto.
Qed.

Lemma addCollection_clean input uuid now w :
  clean w -> clean (snd (addCollection input uuid now w)).
Proof.
  unfold clean, addCollection. run_action. intros H.
  destruct (local_ok w); simpl; [|assumption].
  apply Forall_app. split; [assumption|]. repeat constructor.
Qed.

Lemma updateCollection_clean id input now w :
  clean w -> clean (snd (updateCollection id input now w)).
Proof.
  unfold clean, updateCollection. run_action. intros H.
  destruct (list_find _ _) as [[i x]|] eqn:E; simpl; [|assumption].
  destruct (local_ok w); simpl; [|assumption].
  apply list_find_Some in E as (Hi & _ & _).
  apply Forall_insert; [assumption|].
  pose proof (Forall_lookup_1 _ _ _ _ H Hi) as Hx.
  unfold visible, not_deleted in *. simpl. exact Hx.
Qed.

Lemma deleteCollection_clean id now w :
  clean w -> clean (snd (deleteCollection id now w)).
Proof.
  unfold clean, deleteCollection. run_action. intros H.
  destruct (list_find _ _); simpl; [|assumption].
  destruct (local_ok w); simpl; [|assumption].
  apply Forall_forall. intros x Hx. apply list_elem_of_filter in Hx. tauto.
Qed.
End CollectionStoreVisible.

Section SpaceStoreVisible.
Import SpaceStore.

Let clean (w : World t) : Prop := Forall visible (spaces (state w)).

Lemma loadSpaces_clean w : clean w -> clean (snd (loadSpaces w)).
Proof.
  unfold clean, loadSpaces. run_action. intros H.
  destruct (local_ok w); simpl; [|assumption].
  apply Forall_forall. intros x Hx. apply list_elem_of_filter in Hx. tauto.
Qed.

Lemma setActiveSpace_spaces id w :
  spaces (state (snd (setActiveSpace id w))) = spaces (state w).
Proof. unfold setActiveSpace. run_action. destruct (local_ok w); reflexivity. Qed.

Lemma setActiveSpace_clean id w : clean w -> clean (snd (setActiveSpace id w)).
Proof. unfold clean. rewrite setActiveSpace_spaces. auto. Qed.

Lemma addSpace_clean input uuid now w :
  clean w -> clean (snd (addSpace input uuid now w)).
Proof.
  unfold clean, addSpace, setActiveSpace. run_action. intros H.
  destruct (local_ok w) eqn:Hok; simpl; [|assumption].
  destruct (Nat.eqb _ 1); simpl; rewrite ?Hok; simpl;
    (apply Forall_app; split; [assumption|repeat constructor]).
Qed.

Lemma updateSpace_clean id input now w :
  clean w -> clean (snd (updateSpace id input now w)).
Proof.
  unfold clean, updateSpace. run_action. intros H.
  destruct (list_find _ _) as [[i x]|] eqn:E; simpl; [|assumption].
  destruct (local_ok w); simpl; [|assumption].
  apply list_find_Some in E as (Hi & _ & _).
  apply Forall_insert; [assumption|].
  pose proof (Forall_lookup_1 _ _ _ _ H Hi) as Hx.
  unfold visible, not_deleted in *. simpl. exact Hx.
Qed.

Lemma deleteSpace_clean id now w :
  clean w -> clean (snd (deleteSpace id now w)).
Proof.
  unfold clean, deleteSpace, setActiveSpace. run_action. intros H.
  destruct (list_find _ _); simpl; [|assumption].
  destruct (local_ok w) eqn:Hok; simpl; [|assumption].
  assert (Forall visible
            (filter visible
               (List.map (fun x => if decide (Space.id x = id)
                                   then tombstone x now else x)
                         (spaces (state w))))) as Hf.
  { apply Forall_forall. intros x Hx. apply list_elem_of_filter in Hx. tauto. }
  destruct (decide (activeSpaceId (state w) = Some id)); simpl; [|exact Hf].
  destruct (filter visible _) eqn:Ev; simpl; rewrite ?Hok; simpl; exact Hf.
Qed.
End SpaceStoreVisible.

(** C9. Every operation of the tab, collection and space stores, and every
    change of the storage area made from outside, keeps the published
    in-memory lists free of records with [is_deleted = true]; the lists are
    empty when the extension starts, so along every sequence of operations,
    whatever the storage area holds and whether or not its calls succeed, no
    tombstone is ever observable through a store's list state. *)
Theorem published_lists_hold_no_tombstone :
  forall (stored : Storage.t) (ok : bool) (ops : list App.Op),
    App.published_clean (App.run ops (App.boot stored ok))
    /\ (forall a op, App.published_clean a -> App.published_clean (App.step a op)).
Proof.
  assert (forall a op, App.published_clean a -> App.published_clean (App.step a op))
    as Hstep.
  { intros a op (Ht & Hc & Hs).
    destruct op; unfold App.published_clean, App.step, App.on_tabs,
      App.on_collections, App.on_spaces; simpl; repeat split;
      try assumption.
    - apply (loadTabs_clean (mkWorld _ _ _)); exact Ht.
    - apply (addTab_clean _ _ _ (mkWorld _ _ _)); exact Ht.
    - apply (updateTab_clean _ _ _ (mkWorld _ _ _)); exact Ht.
    - apply (deleteTab_clean _ _ (mkWorld _ _ _)); exact Ht.
    - apply (moveTab_clean _ _ _ (mkWorld _ _ _)); exact Ht.
    - apply (loadCollections_clean (mkWorld _ _ _)); exact Hc.
    - apply (addCollection_clean _ _ _ (mkWorld _ _ _)); exact Hc.
    - apply (updateCollection_clean _ _ _ (mkWorld _ _ _)); exact Hc.
    - apply (deleteCollection_clean _ _ (mkWorld _ _ _)); exact Hc.
    - apply (loadSpaces_clean (mkWorld _ _ _)); exact Hs.
    - apply (addSpace_clean _ _ _ (mkWorld _ _ _)); exact Hs.
    - apply (updateSpace_clean _ _ _ (mkWorld _ _ _)); exact Hs.
    - apply (deleteSpace_clean _ _ (mkWorld _ _ _)); exact Hs.
    - apply (setActiveSpace_clean _ (mkWorld _ _ _)); exact Hs. }
  intros stored ok ops. split; [|exact Hstep].
  unfold App.run.
  assert (App.published_clean (App.boot stored ok)) as H0.
  { unfold App.published_clean, App.boot. simpl. repeat split; constructor. }
  revert H0. generalize (App.boot stored ok).
  induction ops as [|op ops IH]; intros a Ha; simpl; [exact Ha|].
  apply IH, Hstep, Ha.
Qed.

(** ** The session's expiry test *)

Section Session.
Import AuthStore.

Lemma truthy_number_false (n : option Z) :
  JS.truthy_number n = false <-> n = None \/ n = Some 0.
Proof.
  destruct n as [[| |]|]; simpl; split; intros H;
    try discriminate; auto; destruct H; congruence.
Qed.

(** C2, as amended. [isTokenExpired()] returns true exactly when no expiry
    instant is recorded (the field is [null], or holds the falsy number 0)
    or the recorded instant is strictly before the current time; when the
    recorded instant equals the current time it returns false. *)
Theorem isTokenExpired_strict (s : t) (Date_now : Z) :
  (isTokenExpired s Date_now = true <->
     token_expires_at s = None \/ token_expires_at s = Some 0
     \/ exists e, token_expires_at s = Some e /\ e < Date_now)
  /\ (forall e, token_expires_at s = Some e -> e <> 0 -> e = Date_now ->
      isTokenExpired s Date_now = false).
Proof.
  unfold isTokenExpired. split.
  - destruct (JS.truthy_number (token_expires_at s)) eqn:E; simpl.
    + destruct (token_expires_at s) as [e|]; [|discriminate]. simpl.
      rewrite Z.gtb_ltb, Z.ltb_lt. split.
      * intros H. right. right. exists e. auto.
      * intros [H|[H|(e' & H & Hlt)]]; try discriminate.
        -- injection H as ->. discriminate.
        -- injection H as ->. exact Hlt.
    + apply truthy_number_false in E. split; [|reflexivity].
      intros _. destruct E; auto.
  - intros e He Hnz ->. rewrite He.
    destruct Date_now; simpl; try congruence;
      rewrite Z.gtb_ltb; apply Z.ltb_irrefl.
Qed.
End Session.

(** C2 fails as stated: with the expiry recorded as instant 1000 and the
    clock at 1000, the expiry is less than or equal to the current time and
    [isTokenExpired()] returns false. *)
Lemma isTokenExpired_at_expiry_instant :
  let s := AuthStore.mk None (Some "token") (Some 1000) true false in
  ~ (AuthStore.isTokenExpired s 1000 = true <->
       AuthStore.token_expires_at s = None
       \/ exists e, AuthStore.token_expires_at s = Some e /\ e <= 1000).
Proof.
  simpl. intros [_ H].
  assert (AuthStore.isTokenExpired
            (AuthStore.mk None (Some "token") (Some 1000) true false) 1000
          = true) as Hx.
  { apply H. right. exists 1000. split; [reflexivity|lia]. }
  vm_compute in Hx. discriminate.
Qed.

Lemma isTokenExpired_strict_witness :
  AuthStore.isTokenExpired
    (AuthStore.mk None (Some "token") (Some 1000) true false) 1000 = false.
Proof.
  apply (proj2 (isTokenExpired_strict
                  (AuthStore.mk None (Some "token") (Some 1000) true false)
                  1000) 1000); [reflexivity|lia|reflexivity].
Defined.

(** ** The request gateway's authentication gate *)

Section GatewayGate.
Import ApiClient.
Context {Json : Type}.
Variable truthy : Json -> bool.
Variable JSON_stringify : Json -> string.
Variable empty_object : Json.
Variable message_object : string -> Json.
Variable fetch : NetworkCall -> option (@Response Json).

Let send := request truthy JSON_stringify empty_object message_object fetch.

Lemma truthy_string_false (o : option string) :
  JS.truthy_string o = false <-> o = None \/ o = Some "".
Proof.
  destruct o as [[|c r]|]; simpl; split; intros H;
    try discriminate; auto; destruct H; congruence.
Qed.

(** C7. A request with the [requiresAuth] flag set fails with
    [ApiError 401] without any network call when the session holds no
    access token ([null], or the empty string, which JavaScript treats the
    same way) or [isTokenExpired()] is true; otherwise exactly one network
    call is issued, to [baseUrl + endpoint], and it carries the header
    [Authorization: Bearer <token>]. *)
Theorem protected_request_gate
    (baseUrl method endpoint : string) (data : option Json)
    (options : RequestOptions) (auth : AuthStore.t) (Date_now : Z)
    (Hflag : requiresAuth options = Some true) :
  (AuthStore.access_token auth = None \/ AuthStore.access_token auth = Some ""
   \/ AuthStore.isTokenExpired auth Date_now = true ->
   send baseUrl method endpoint data options auth Date_now
   = (inl (ApiError 401 (message_object "Not authenticated")), []))
  /\ (forall token,
        AuthStore.access_token auth = Some token -> token <> "" ->
        AuthStore.isTokenExpired auth Date_now = false ->
        exists call,
          snd (send baseUrl method endpoint data options auth Date_now) = [call]
          /\ ApiClient.url call = baseUrl +:+ endpoint
          /\ ApiClient.method (init call) = method
          /\ headers_get "Authorization" (headers (init call))
             = Some ("Bearer " +:+ token)
          /\ headers_get "Content-Type" (headers (init call))
             = Some "application/json").
Proof.
  unfold send, request. rewrite Hflag. simpl. split.
  - intros H.
    assert (negb (JS.truthy_string (AuthStore.access_token auth))
            || AuthStore.isTokenExpired auth Date_now = true) as ->;
      [|reflexivity].
    apply orb_true_iff. destruct H as [H|[H|H]]; [left|left|right; exact H];
      rewrite H; reflexivity.
  - intros token Htok Hne Hexp. rewrite Htok, Hexp.
    assert (JS.truthy_string (Some token) = true) as ->.
    { destruct token; [congruence|reflexivity]. }
    simpl.
    match goal with |- context [fetch ?c] => exists c end.
    split; [|repeat split].
    destruct (fetch _) as [r|]; [|reflexivity].
    destruct (negb (ok r)); [reflexivity|].
    destruct (status r =? 204); [reflexivity|].
    destruct (json r); reflexivity.
Qed.
End GatewayGate.

Lemma protected_request_gate_witness :
  ApiClient.request (fun _ : string => true) (fun s => s) "{}" (fun m => m)
    (fun _ => Some (ApiClient.mk_response 200 (Some "[]")))
    "http://localhost:8000" "GET" "/api/v1/spaces" None
    (ApiClient.mk_options (Some true))
    (AuthStore.mk None None None false false) 5
  = (inl (ApiClient.ApiError 401 "Not authenticated"), []).
Proof.
  apply (proj1 (protected_request_gate (fun _ : string => true) (fun s => s)
                  "{}" (fun m => m)
                  (fun _ => Some (ApiClient.mk_response 200 (Some "[]")))
                  "http://localhost:8000" "GET" "/api/v1/spaces" None
                  (ApiClient.mk_options (Some true))
                  (AuthStore.mk None None None false false) 5 eq_refl)).
  left. reflexivity.
Defined.

(** ** The request signature *)

Section SignatureFacts.
Import WebCrypto Signature SignatureSpec.
Local Open Scope N_scope.

Lemma big_endian_bytes width x : Forall (fun b => b < 256) (big_endian width x).
Proof.
  unfold big_endian. apply Forall_forall. intros b Hb.
  apply list_elem_of_In, in_map_iff in Hb as (i & <- & _).
  apply N.mod_lt. discriminate.
Qed.

Lemma digest_bytes_length r : length (digest_bytes r) = 32%nat.
Proof. reflexivity. Qed.

Lemma digest_bytes_range r : Forall (fun b => b < 256) (digest_bytes r).
Proof.
  unfold digest_bytes. repeat (apply Forall_app; split);
    apply big_endian_bytes.
Qed.

Lemma hmac_sha256_length key msg : length (hmac_sha256 key msg) = 32%nat.
Proof. unfold hmac_sha256, sha256. apply digest_bytes_length. Qed.

Lemma hmac_sha256_range key msg :
  Forall (fun b => b < 256) (hmac_sha256 key msg).
Proof. unfold hmac_sha256, sha256. apply digest_bytes_range. Qed.

(** The platform model agrees with the one-block example of FIPS 180-4 and
    with the second test case of RFC 4231. *)
Example sha256_abc :
  hex_lower (sha256 (JS.TextEncoder_encode "abc"))
  = "ba7816bf8f01cfea414140de5dae2223b00361a396177a9cb410ff61f20015ad"%string.
Proof. vm_compute. reflexivity. Qed.

Example hmac_sha256_rfc4231_case2 :
  hex_lower (hmac_sha256 (JS.TextEncoder_encode "Jefe")
               (JS.TextEncoder_encode "what do ya want for nothing?"))
  = "5bdcc146bf60754e6a042426089575c75a003f089d2739839dec58b964ec3843"%string.
Proof. vm_compute. reflexivity. Qed.

Lemma byte_to_hex_table :
  forallb (fun n => String.eqb (byte_to_hex (N.of_nat n))
                      (String (hex_digit (N.of_nat n / 16))
                         (String (hex_digit (N.of_nat n mod 16)) EmptyString)))
          (seq 0 256) = true.
Proof. vm_compute. reflexivity. Qed.

Lemma byte_to_hex_two_digits b :
  b < 256 ->
  byte_to_hex b
  = String (hex_digit (b / 16)) (String (hex_digit (b mod 16)) EmptyString).
Proof.
  intros Hb. pose proof byte_to_hex_table as T.
  rewrite forallb_forall in T.
  specialize (T (N.to_nat b)). rewrite N2Nat.id in T.
  apply String.eqb_eq, T, in_seq. lia.
Qed.

Lemma concat_empty_cons (x : string) (l : list string) :
  String.concat "" (x :: l) = (x +:+ String.concat "" l)%string.
Proof.
  destruct l as [|y l]; simpl; [|reflexivity].
  induction x as [|c x IH]; [reflexivity|].
  change (String c x +:+ "")%string with (String c (x +:+ ""))%string.
  f_equal. exact IH.
Qed.

Lemma hex_of_bytes (bytes : list N) :
  Forall (fun b => b < 256) bytes ->
  String.concat "" (List.map byte_to_hex bytes) = hex_lower bytes.
Proof.
  unfold hex_lower. induction 1 as [|b l Hb Hl IH]; [reflexivity|].
  change (List.map byte_to_hex (b :: l))
    with (byte_to_hex b :: List.map byte_to_hex l).
  rewrite concat_empty_cons, IH, byte_to_hex_two_digits by exact Hb.
  reflexivity.
Qed.

Lemma hex_digit_lower d : d < 16 -> is_lower_hex (hex_digit d).
Proof.
  intros Hd. unfold is_lower_hex, hex_digit.
  apply nth_In. change (length lower_hex_alphabet) with 16%nat. lia.
Qed.

Lemma hex_lower_alphabet (bytes : list N) :
  Forall (fun b => b < 256) bytes ->
  Forall is_lower_hex (list_ascii_of_string (hex_lower bytes)).
Proof.
  unfold hex_lower. rewrite list_ascii_of_string_of_list_ascii.
  induction 1 as [|b l Hb Hl IH]; simpl; [constructor|].
  constructor; [|constructor; [|exact IH]]; apply hex_digit_lower.
  - apply N.Div0.div_lt_upper_bound. lia.
  - apply N.mod_lt. discriminate.
Qed.

Lemma hex_lower_length (bytes : list N) :
  String.length (hex_lower bytes) = (2 * length bytes)%nat.
Proof.
  unfold hex_lower. induction bytes as [|b l IH]; simpl; [reflexivity|].
  rewrite IH. lia.
Qed.

Lemma Number_toString_safe (n : Z) :
  (Z.abs n <= JS.MAX_SAFE_INTEGER)%Z ->
  JS.Number_toString n = decimal_numeral n.
Proof.
  intros H. unfold JS.Number_toString, JS.to_Number.
  assert ((Z.abs n <=? JS.MAX_SAFE_INTEGER + 1)%Z = true) as E
    by (apply Z.leb_le; lia).
  rewrite E, E. reflexivity.
Qed.

Lemma decimal_numeral_reads_back (n : Z) :
  parse_decimal (decimal_numeral n) = Some n.
Proof.
  unfold parse_decimal, decimal_numeral.
  rewrite DecimalString.NilZero.isi.
  - simpl. f_equal. apply DecimalZ.of_to.
  - destruct n; simpl; try discriminate.
    intros [= H]. revert H. apply DecimalPos.Unsigned.to_uint_nonnil.
  - destruct n; simpl; try discriminate.
    intros [= H]. revert H. apply DecimalPos.Unsigned.to_uint_nonnil.
Qed.

Lemma SIGNATURE_SECRET_configured (configured : option string) :
  SIGNATURE_SECRET configured = signing_secret configured.
Proof. destruct configured as [[|c rest]|]; reflexivity. Qed.

(** Above the safe integers the template literal no longer writes the
    integer out: it pads the shortest digits with zeros, and from 10^21 on
    it switches to exponent notation. *)
Example Number_toString_beyond_safe_integers :
  JS.Number_toString (2 ^ 60)%Z = "1152921504606847000"%string
  /\ JS.Number_toString (10 ^ 21)%Z = "1e+21"%string
  /\ JS.Number_toString (2 ^ 70)%Z = "1.1805916207174113e+21"%string
  /\ JS.Number_toString (- 2 ^ 100)%Z = "-1.2676506002282294e+30"%string.
Proof. vm_compute. repeat split. Qed.
End SignatureFacts.

(** C8. For an [authAt] that is a safe integer, as a Unix time in seconds
    is, [generateSignature(email, nonce, authAt, purpose)] is the lowercase
    Base16 encoding of HMAC-SHA-256, keyed by the UTF-8 bytes of the shared
    signing secret (the configured one, [default_secret_key] when none is
    configured), over the UTF-8 bytes of the email, the nonce, the decimal
    numeral of [authAt] and the purpose joined by colons; it has 64
    characters, each one of [0-9a-f], and what the code writes for [authAt]
    is a decimal numeral that reads back as [authAt]. *)
Theorem generateSignature_hex_hmac
    (VITE_SIGNATURE_SECRET : option string)
    (email nonce : string) (authAt : Z) (purpose : string)
    (Hsafe : Z.abs authAt <= JS.MAX_SAFE_INTEGER) :
  let signature :=
    Signature.generateSignature VITE_SIGNATURE_SECRET email nonce authAt purpose in
  signature
  = SignatureSpec.hex_lower
      (WebCrypto.hmac_sha256
         (JS.TextEncoder_encode
            (SignatureSpec.signing_secret VITE_SIGNATURE_SECRET))
         (JS.TextEncoder_encode
            (SignatureSpec.canonical_string email nonce authAt purpose)))
  /\ String.length signature = 64%nat
  /\ Forall SignatureSpec.is_lower_hex (list_ascii_of_string signature)
  /\ SignatureSpec.parse_decimal (JS.Number_toString authAt) = Some authAt.
Proof.
  intros signature.
  assert (signature
          = SignatureSpec.hex_lower
              (WebCrypto.hmac_sha256
                 (JS.TextEncoder_encode
                    (SignatureSpec.signing_secret VITE_SIGNATURE_SECRET))
                 (JS.TextEncoder_encode
                    (SignatureSpec.canonical_string email nonce authAt purpose))))
    as E.
  { unfold signature, Signature.generateSignature.
    rewrite (Number_toString_safe authAt Hsafe), SIGNATURE_SECRET_configured.
    apply (hex_of_bytes _ (hmac_sha256_range _ _)). }
  rewrite E. split; [reflexivity|]. split; [|split].
  - rewrite hex_lower_length, hmac_sha256_length. reflexivity.
  - apply hex_lower_alphabet, hmac_sha256_range.
  - rewrite (Number_toString_safe authAt Hsafe).
    apply decimal_numeral_reads_back.
Qed.

(** With no secret configured, and with the secret [s3cret], the signature
    of a login request is the value an independent HMAC-SHA-256
    implementation gives for the same key and canonical string. *)
Lemma generateSignature_hex_hmac_witness :
  Signature.generateSignature None "ada@example.test" "nonce-1" 1700000000
                              "login"
  = "0cc96b506315ff30f417d8799360a4f25765f38152805090c404c3f33f7cfd6b"
  /\ Signature.generateSignature (Some "s3cret") "ada@example.test" "nonce-1"
                                 1700000000 "login"
     = "76355a41b0bd60aa478d6316c060a496263e4f0066d87f569764bf5e53827afe".
Proof.
  assert (Z.abs 1700000000 <= JS.MAX_SAFE_INTEGER) as Hsafe
    by (apply Z.leb_le; reflexivity).
  split.
  - rewrite (proj1 (generateSignature_hex_hmac None "ada@example.test"
                      "nonce-1" 1700000000 "login" Hsafe)).
    vm_compute. reflexivity.
  - rewrite (proj1 (generateSignature_hex_hmac (Some "s3cret")
                      "ada@example.test" "nonce-1" 1700000000 "login" Hsafe)).
    vm_compute. reflexivity.
Defined.

(** ** Lists of records *)

Section ListFacts.
Context {A : Type}.

Lemma filter_insert_length (P : A -> Prop) `{!forall x, Decision (P x)}
    (l : list A) (i : nat) (x y : A) :
  l !! i = Some x -> (P x <-> P y) ->
  length (filter P (<[i := y]> l)) = length (filter P l).
Proof.
  revert i. induction l as [|a l IH]; intros [|i] Hi Hxy; simpl in *;
    try discriminate.
  - injection Hi as ->. rewrite !filter_cons.
    destruct (decide (P y)), (decide (P x)); simpl; tauto.
  - rewrite !filter_cons. destruct (decide (P a)); simpl;
      rewrite (IH i Hi Hxy); reflexivity.
Qed.

Lemma filter_ext_in (P Q : A -> Prop) `{!forall x, Decision (P x)}
    `{!forall x, Decision (Q x)} (l : list A) :
  Forall (fun x => P x <-> Q x) l -> filter P l = filter Q l.
Proof.
  induction 1 as [|a l Ha Hl IH]; [reflexivity|].
  rewrite !filter_cons, IH.
  destruct (decide (P a)), (decide (Q a)); tauto.
Qed.

Lemma find_unique_key {K : Type} `{!EqDecision K} (key : A -> K)
    (l : list A) (x : A) :
  NoDup (key <$> l) -> x ∈ l ->
  exists i, list_find (fun y => key y = key x) l = Some (i, x).
Proof.
  intros Hnd Hx.
  destruct (list_find_elem_of (fun y => key y = key x) l x Hx eq_refl)
    as [[j y] Hj].
  exists j. rewrite Hj. do 2 f_equal.
  pose proof Hj as (Hl & Hk & _)%list_find_Some.
  apply list_elem_of_lookup in Hx as [i Hi].
  assert (i = j) as ->.
  { apply (NoDup_lookup (key <$> l) i j (key x) Hnd);
      rewrite list_lookup_fmap; [rewrite Hi|rewrite Hl]; simpl;
      [reflexivity|f_equal; exact Hk]. }
  congruence.
Qed.

End ListFacts.

(** ** The tab store: capacity, merging and moving *)

Section TabStoreBehaviour.
Import TabStore.

Lemma live_in_collection_visible c (l : list Tab.t) :
  Forall visible l -> in_collection c l = live_in_collection c l.
Proof.
  intros H. unfold in_collection, live_in_collection.
  apply filter_ext_in. eapply Forall_impl; [exact H|]. simpl. tauto.
Qed.

Lemma live_in_collection_le c (l : list Tab.t) :
  (length (live_in_collection c l) <= length (in_collection c l))%nat.
Proof.
  unfold in_collection, live_in_collection.
  induction l as [|a l IH]; [reflexivity|]. rewrite !filter_cons.
  destruct (decide (Tab.collection_id a = c)),
    (decide (Tab.collection_id a = c /\ visible a)); simpl; try tauto; lia.
Qed.

Lemma updateTab_found w id input now i x :
  list_find (fun y => Tab.id y = id) (tabs (state w)) = Some (i, x) ->
  local_ok w = true ->
  updateTab id input now w
  = (Returned (spread x input now),
     mkWorld (with_tabs (<[i := spread x input now]> (tabs (state w))) (state w))
             (Storage.set_tabs (<[i := spread x input now]> (tabs (state w)))
                               (local w))
             (local_ok w)).
Proof.
  intros H Hok. unfold updateTab. run_action. rewrite H. simpl.
  rewrite Hok. reflexivity.
Qed.


Lemma addTab_capacity_guard w input uuid now :
  MAX_TABS_PER_COLLECTION
  <= Z.of_nat (length (in_collection (CreateTabInput.collection_id input)
                                     (tabs (state w)))) ->
  addTab input uuid now w
  = (Threw (Error "Collection already has 1000 tabs"), w).
Proof.
  intros H. unfold addTab. run_action.
  apply Z.leb_le in H. rewrite H. reflexivity.
Qed.

Lemma moveTab_capacity_guard w id target now i x :
  list_find (fun y => Tab.id y = id) (tabs (state w)) = Some (i, x) ->
  MAX_TABS_PER_COLLECTION
  <= Z.of_nat (length (in_collection target (tabs (state w)))) ->
  moveTab id target now w
  = (Threw (Error "Target collection already has 1000 tabs"), w).
Proof.
  intros Hf H. unfold moveTab. run_action. rewrite Hf.
  apply Z.leb_le in H. rewrite H. reflexivity.
Qed.

(** C5. When the destination collection already holds 1000 non-deleted
    tabs, [addTab] throws the capacity error and leaves the store's state
    and the storage area exactly as they were; this holds for every input,
    so in particular for one whose URL is not yet in the collection. *)
Theorem addTab_at_capacity_changes_nothing
    (w : World t) (input : CreateTabInput.t) (uuid now : string)
    (Hfull : MAX_TABS_PER_COLLECTION
             <= Z.of_nat (length (live_in_collection
                                    (CreateTabInput.collection_id input)
                                    (tabs (state w))))) :
  addTab input uuid now w
  = (Threw (Error "Collection already has 1000 tabs"), w).
Proof.
  apply addTab_capacity_guard.
  pose proof (live_in_collection_le (CreateTabInput.collection_id input)
                (tabs (state w))).
  lia.
Qed.

(** C1, as amended. When the collection holds fewer than 1000 tabs and
    one of its non-deleted tabs has the input's URL, [addTab] rewrites that
    tab in place: its title and favicon become the input's, its update
    stamp becomes the current time, and every other field keeps its value.
    The list of identifiers, the length of the list and the number of
    non-deleted tabs of the collection are unchanged, and the list that is
    persisted is the new in-memory list. *)
Theorem addTab_duplicate_url_merges
    (w : World t) (input : CreateTabInput.t) (uuid now : string)
    (Hok : local_ok w = true)
    (Hclean : Forall visible (tabs (state w)))
    (Hids : NoDup (Tab.id <$> tabs (state w)))
    (Hroom : Z.of_nat (length (live_in_collection
                                 (CreateTabInput.collection_id input)
                                 (tabs (state w))))
             < MAX_TABS_PER_COLLECTION)
    (Hdup : exists x, x ∈ tabs (state w)
              /\ Tab.collection_id x = CreateTabInput.collection_id input
              /\ Tab.url x = CreateTabInput.url input
              /\ visible x) :
  exists (i : nat) (e : Tab.t),
    tabs (state w) !! i = Some e
    /\ Tab.collection_id e = CreateTabInput.collection_id input
    /\ Tab.url e = CreateTabInput.url input
    /\ let merged :=
         {| Tab.id := Tab.id e;
            Tab.collection_id := Tab.collection_id e;
            Tab.title := CreateTabInput.title input;
            Tab.url := Tab.url e;
            Tab.favicon := CreateTabInput.favicon input;
            Tab.description := Tab.description e;
            Tab.order := Tab.order e;
            Tab.tags := Tab.tags e;
            Tab.created_at := Tab.created_at e;
            Tab.updated_at := now;
            Tab.synced_at := Tab.synced_at e;
            Tab.is_deleted := Tab.is_deleted e;
            Tab.meta := Tab.meta e |} in
       let updatedTabs := <[i := merged]> (tabs (state w)) in
       addTab input uuid now w
       = (Returned merged,
          mkWorld (with_tabs updatedTabs (state w))
                  (Storage.set_tabs updatedTabs (local w)) (local_ok w))
       /\ Tab.id <$> updatedTabs = Tab.id <$> tabs (state w)
       /\ length updatedTabs = length (tabs (state w))
       /\ length (live_in_collection (CreateTabInput.collection_id input)
                                     updatedTabs)
          = length (live_in_collection (CreateTabInput.collection_id input)
                                       (tabs (state w))).
Proof.
  destruct Hdup as (x & Hx & Hxc & Hxu & Hxv).
  set (c := CreateTabInput.collection_id input) in *.
  assert (x ∈ in_collection c (tabs (state w))) as Hxin.
  { apply list_elem_of_filter. split; assumption. }
  destruct (list_find_elem_of
              (fun y => Tab.url y = CreateTabInput.url input)
              (in_collection c (tabs (state w))) x Hxin Hxu) as [[j e] Hfind].
  pose proof Hfind as (Hj & Heu & _)%list_find_Some.
  apply list_elem_of_lookup_2, list_elem_of_filter in Hj as [Hec He].
  destruct (find_unique_key Tab.id (tabs (state w)) e Hids He) as [i Hi].
  pose proof Hi as (Hlook & _ & _)%list_find_Some.
  exists i, e. split; [exact Hlook|]. split; [exact Hec|]. split; [exact Heu|].
  simpl. split; [|split; [|split]].
  - rewrite <- (live_in_collection_visible c _ Hclean) in Hroom.
    unfold addTab, bind at 1, get. simpl. fold c.
    apply Z.ltb_lt in Hroom. rewrite Z.leb_antisym, Hroom. simpl.
    rewrite Hfind.
    rewrite (updateTab_found w (Tab.id e) _ now i e Hi Hok). reflexivity.
  - rewrite list_fmap_insert. simpl. apply list_insert_id.
    rewrite list_lookup_fmap, Hlook. reflexivity.
  - apply length_insert.
  - apply (filter_insert_length _ _ i e); [exact Hlook|].
    unfold visible, not_deleted. simpl. tauto.
Qed.

End TabStoreBehaviour.

(** ** Sorting by an integral key *)

Section SortFacts.
Context {A : Type} (key : A -> Z).

Let compare (a b : A) : Z := key a - key b.
Let le (a b : A) : Prop := key a <= key b.

Lemma sort_insert_Permutation (x : A) (l : list A) :
  JS.sort_insert compare x l ≡ₚ x :: l.
Proof.
  induction l as [|y l IH]; simpl; [reflexivity|].
  destruct (compare x y <=? 0); [reflexivity|].
  rewrite IH. apply Permutation_swap.
Qed.

Lemma Array_sort_Permutation (l : list A) : JS.Array_sort compare l ≡ₚ l.
Proof.
  induction l as [|x l IH]; simpl; [reflexivity|].
  rewrite sort_insert_Permutation, IH. reflexivity.
Qed.

Lemma sort_insert_sorted (x : A) (l : list A) :
  StronglySorted le l -> StronglySorted le (JS.sort_insert compare x l).
Proof.
  induction 1 as [|y l Hl IH Hy]; simpl.
  - repeat constructor.
  - destruct (compare x y <=? 0) eqn:E.
    + apply Z.leb_le in E. unfold compare in E.
      constructor; [constructor; assumption|].
      constructor; [unfold le; lia|].
      eapply Forall_impl; [exact Hy|]. unfold le. simpl. intros; lia.
    + apply Z.leb_gt in E. unfold compare in E.
      constructor; [exact IH|].
      eapply Permutation_Forall; [symmetry; apply sort_insert_Permutation|].
      constructor; [unfold le; lia|exact Hy].
Qed.

Lemma Array_sort_sorted (l : list A) :
  StronglySorted le (JS.Array_sort compare l).
Proof.
  induction l as [|x l IH]; simpl; [constructor|].
  apply sort_insert_sorted, IH.
Qed.

Lemma Array_sort_of_sorted (l : list A) :
  StronglySorted le l -> JS.Array_sort compare l = l.
Proof.
  induction 1 as [|x l Hl IH Hx]; simpl; [reflexivity|].
  rewrite IH. destruct Hx as [|y l Hy _]; simpl; [reflexivity|].
  assert ((compare x y <=? 0) = true) as ->; [|reflexivity].
  apply Z.leb_le. unfold compare, le in *. lia.
Qed.


End SortFacts.

(** ** Appending at the end *)

Lemma NoDup_rotate {A : Type} (x : A) (l k : list A) :
  NoDup ((x :: l) ++ k)%list -> NoDup (l ++ (k ++ [x]))%list.
Proof.
  intros H. rewrite app_assoc.
  assert (((l ++ k) ++ [x])%list ≡ₚ (x :: (l ++ k))%list) as ->;
    [symmetry; apply Permutation_cons_append|exact H].
Qed.

Section Appending.
Import TabStore.

Lemma addTab_fresh w input uuid now :
  local_ok w = true ->
  Z.of_nat (length (in_collection (CreateTabInput.collection_id input)
                                  (tabs (state w))))
  < MAX_TABS_PER_COLLECTION ->
  Forall (fun y => Tab.url y <> CreateTabInput.url input)
         (in_collection (CreateTabInput.collection_id input) (tabs (state w))) ->
  let created :=
    newTab input uuid now
      (length (in_collection (CreateTabInput.collection_id input)
                             (tabs (state w)))) in
  addTab input uuid now w
  = (Returned created,
     mkWorld (with_tabs (tabs (state w) ++ [created])%list (state w))
             (Storage.set_tabs (tabs (state w) ++ [created])%list (local w))
             (local_ok w)).
Proof.
  intros Hok Hroom Hnew created. unfold addTab. run_action.
  apply Z.ltb_lt in Hroom. rewrite Z.leb_antisym, Hroom. simpl.
  rewrite (proj2 (list_find_None _ _) Hnew). simpl. rewrite Hok.
  reflexivity.
Qed.

Lemma in_collection_snoc c (l : list Tab.t) (x : Tab.t) :
  Tab.collection_id x = c ->
  in_collection c (l ++ [x])%list = (in_collection c l ++ [x])%list.
Proof.
  intros H. unfold in_collection. rewrite filter_app. f_equal.
  rewrite filter_cons. destruct (decide (Tab.collection_id x = c)); [|tauto].
  reflexivity.
Qed.

Lemma in_collection_all c (l : list Tab.t) :
  Forall (fun x => Tab.collection_id x = c) l -> in_collection c l = l.
Proof.
  unfold in_collection. induction 1 as [|a l Ha Hl IH]; [reflexivity|].
  rewrite filter_cons, IH. destruct (decide (Tab.collection_id a = c)); tauto.
Qed.

Lemma addTabs_appends (batch : list (CreateTabInput.t * string * string)) :
  forall (w : World t) (c : string),
    local_ok w = true ->
    Forall (fun b => CreateTabInput.collection_id (fst (fst b)) = c) batch ->
    NoDup ((batch_url <$> batch)
           ++ (Tab.url <$> in_collection c (tabs (state w))))%list ->
    Z.of_nat (length (in_collection c (tabs (state w))) + length batch)
    <= MAX_TABS_PER_COLLECTION ->
    exists added,
      fst (addTabs batch w) = Returned added
      /\ tabs (state (snd (addTabs batch w))) = (tabs (state w) ++ added)%list
      /\ Tab.id <$> added = batch_uuid <$> batch
      /\ Forall visible added
      /\ Forall (fun x => Tab.collection_id x = c) added
      /\ forall k x, added !! k = Some x ->
           Tab.order x
           = Z.of_nat (length (in_collection c
                                 (tabs (state w) ++ take k added)%list)).
Proof.
  induction batch as [|[[input uuid] now] rest IH]; intros w c Hok Hc Hnd Hroom.
  - exists []. simpl. rewrite app_nil_r.
    repeat split; try constructor. intros k x Hk. destruct k; discriminate.
  - apply Forall_cons in Hc as [Hc0 Hc]. simpl in Hc0.
    rewrite fmap_cons in Hnd. simpl in Hnd, Hroom.
    pose proof Hnd as Hnd0. apply NoDup_cons in Hnd0 as [Hfresh _].
    assert (Forall (fun y => Tab.url y <> CreateTabInput.url input)
                   (in_collection (CreateTabInput.collection_id input)
                                  (tabs (state w)))) as Hnew.
    { rewrite Hc0. apply Forall_forall. intros y Hy E. apply Hfresh.
      apply elem_of_app. right. unfold batch_url. simpl. rewrite <- E.
      apply list_elem_of_fmap. eauto. }
    assert (Z.of_nat (length (in_collection
                                (CreateTabInput.collection_id input)
                                (tabs (state w))))
            < MAX_TABS_PER_COLLECTION) as Hlt by (rewrite Hc0; lia).
    pose proof (addTab_fresh w input uuid now Hok Hlt Hnew) as Hadd.
    simpl in Hadd. rewrite Hc0 in Hadd.
    set (created := newTab input uuid now
                      (length (in_collection c (tabs (state w))))) in *.
    set (w1 := mkWorld (with_tabs (tabs (state w) ++ [created])%list (state w))
                 (Storage.set_tabs (tabs (state w) ++ [created])%list (local w))
                 (local_ok w)) in *.
    assert (Tab.collection_id created = c) as Hcc by exact Hc0.
    assert (in_collection c (tabs (state w1))
            = (in_collection c (tabs (state w)) ++ [created])%list) as Hin1.
    { apply in_collection_snoc. exact Hcc. }
    destruct (IH w1 c) as (more & Hrun & Htabs & Hids & Hvis & Hcol & Hord).
    + exact Hok.
    + exact Hc.
    + rewrite Hin1, fmap_app. apply NoDup_rotate. exact Hnd.
    + rewrite Hin1, length_app. simpl. lia.
    + exists (created :: more).
      assert (addTabs ((input, uuid, now) :: rest) w
              = (Returned (created :: more), snd (addTabs rest w1))) as Hall.
      { simpl. unfold bind. rewrite Hadd.
        destruct (addTabs rest w1) as [[r|e] w2]; simpl in Hrun;
          [injection Hrun as ->; reflexivity|discriminate]. }
      rewrite Hall. simpl fst. simpl snd.
      split; [reflexivity|]. split.
      { rewrite Htabs. simpl. rewrite <- app_assoc. reflexivity. }
      split; [rewrite fmap_cons, Hids; reflexivity|].
      split; [constructor; [reflexivity|exact Hvis]|].
      split; [constructor; [exact Hcc|exact Hcol]|].
      intros [|k] x Hk; simpl in Hk.
      * injection Hk as <-. simpl. rewrite app_nil_r. reflexivity.
      * rewrite (Hord k x Hk). simpl. rewrite <- app_assoc. reflexivity.
Qed.
End Appending.







(** ** Witnesses for the tab store *)

Lemma addTab_at_capacity_changes_nothing_witness :
  TabStore.addTab (Sample.new_tab "new" "New") "id-new"
                  "2024-02-01T10:00:00.000Z" (Sample.world 1000)
  = (Threw (Error "Collection already has 1000 tabs"), Sample.world 1000).
Proof.
  apply addTab_at_capacity_changes_nothing.
  apply Z.leb_le. vm_compute. reflexivity.
Defined.

(** C1 fails as stated: in a collection that holds 1000 non-deleted tabs,
    adding the URL of its first tab is not turned into an update of that
    tab; the call throws the capacity error. *)
Lemma addTab_duplicate_url_at_capacity :
  let w := Sample.world 1000 in
  let input := Sample.new_tab "0" "Renamed" in
  (exists e, TabStore.tabs (state w) !! 0%nat = Some e
             /\ Tab.collection_id e = CreateTabInput.collection_id input
             /\ Tab.url e = CreateTabInput.url input
             /\ TabStore.visible e)
  /\ length (TabStore.live_in_collection "research" (TabStore.tabs (state w)))
     = 1000%nat
  /\ TabStore.addTab input "id-new" "2024-02-01T10:00:00.000Z" w
     = (Threw (Error "Collection already has 1000 tabs"), w).
Proof.
  cbv zeta. split; [|split].
  - exists (Sample.tab 0 "research"). repeat split.
  - vm_compute. reflexivity.
  - apply addTab_capacity_guard. apply Z.leb_le. vm_compute. reflexivity.
Qed.

Lemma addTab_duplicate_url_merges_witness :
  exists i e,
    TabStore.tabs (state (Sample.world 3)) !! i = Some e
    /\ Tab.url e = "https://example.test/1"
    /\ fst (TabStore.addTab (Sample.new_tab "1" "Renamed") "id-new"
                            "2024-02-01T10:00:00.000Z" (Sample.world 3))
       = Returned
           {| Tab.id := Tab.id e;
              Tab.collection_id := Tab.collection_id e;
              Tab.title := "Renamed";
              Tab.url := Tab.url e;
              Tab.favicon := None;
              Tab.description := Tab.description e;
              Tab.order := Tab.order e;
              Tab.tags := Tab.tags e;
              Tab.created_at := Tab.created_at e;
              Tab.updated_at := "2024-02-01T10:00:00.000Z";
              Tab.synced_at := Tab.synced_at e;
              Tab.is_deleted := Tab.is_deleted e;
              Tab.meta := Tab.meta e |}.
Proof.
  destruct (addTab_duplicate_url_merges (Sample.world 3)
              (Sample.new_tab "1" "Renamed") "id-new"
              "2024-02-01T10:00:00.000Z")
    as (i & e & Hi & _ & Hu & Hrun & _).
  - reflexivity.
  - repeat constructor.
  - apply (bool_decide_unpack _). vm_compute. exact I.
  - apply Z.ltb_lt. vm_compute. reflexivity.
  - exists (Sample.tab 1 "research"). split; [|repeat split].
    apply list_elem_of_lookup. exists 1%nat. reflexivity.
  - exists i, e. split; [exact Hi|]. split; [exact Hu|].
    rewrite Hrun. reflexivity.
Defined.


(** The full collection of the samples rejects a move of its own first tab. *)
Example moveTab_full_collection_rejected :
  TabStore.moveTab "tab-0" "research" "2024-02-01T10:00:00.000Z"
                   (Sample.world 1000)
  = (Threw (Error "Target collection already has 1000 tabs"),
     Sample.world 1000).
Proof.
  apply (moveTab_capacity_guard _ _ _ _ 0%nat (Sample.tab 0 "research")).
  - vm_compute. reflexivity.
  - apply Z.leb_le. vm_compute. reflexivity.
Qed.

(** ** Where [update] looks an identifier up *)

Section UpdateLookup.




(** Marking the records of one identifier and filtering the marked ones out
    leaves no record of that identifier. *)
Lemma tombstoned_id_gone {A : Type} (key : A -> string) (mark : A -> A)
    (live : A -> Prop) `{!forall x, Decision (live x)} (id : string)
    (l : list A) :
  (forall x, ~ live (mark x)) ->
  Forall (fun y => key y <> id)
         (filter live
            (List.map (fun x => if decide (key x = id) then mark x else x) l)).
Proof.
  intros Hmark. apply Forall_forall. intros y Hy E.
  apply list_elem_of_filter in Hy as [Hlive Hy].
  apply list_elem_of_In, in_map_iff in Hy as (x & Hx & _).
  destruct (decide (key x = id)); subst y; [exact (Hmark x Hlive)|tauto].
Qed.



Lemma deleteSpace_spaces (w : World SpaceStore.t) id now :
  local_ok w = true ->
  SpaceStore.spaces (state (snd (SpaceStore.deleteSpace id now w)))
  = match list_find (fun x => Space.id x = id) (SpaceStore.spaces (state w)) with
    | Some _ =>
        filter SpaceStore.visible
          (List.map (fun x => if decide (Space.id x = id)
                              then SpaceStore.tombstone x now else x)
                    (SpaceStore.spaces (state w)))
    | None => SpaceStore.spaces (state w)
    end.
Proof.
  intros Hok. unfold SpaceStore.deleteSpace, SpaceStore.setActiveSpace.
  run_action.
  destruct (list_find _ _); simpl; [|reflexivity]. rewrite Hok. simpl.
  destruct (decide (SpaceStore.activeSpaceId (state w) = Some id)); simpl;
    [|reflexivity].
  destruct (filter SpaceStore.visible _) eqn:Ev; simpl; rewrite ?Hok;
    reflexivity.
Qed.

End UpdateLookup.




(** ** What a write after a delete does to the stored tombstone *)

(** C3 at its failing input: add tab A, delete it, add tab B.  After the
    delete the stored collection holds A marked deleted; after the next add
    it holds B only, so the record of A has been erased from storage. *)
Theorem tombstone_erased_by_next_write :
  let a2 :=
    App.run [ App.addTab (Sample.new_tab "a" "A") "id-a"
                         "2024-02-01T10:00:00.000Z";
              App.deleteTab "id-a" "2024-02-01T10:00:01.000Z" ]
            (App.boot Storage.empty true) in
  let a3 :=
    App.step a2 (App.addTab (Sample.new_tab "b" "B") "id-b"
                            "2024-02-01T10:00:02.000Z") in
  (exists r, Storage.tabs (App.chrome_local a2) = Some [r]
             /\ Tab.id r = "id-a" /\ Tab.is_deleted r = Some true)
  /\ (exists r, Storage.tabs (App.chrome_local a3) = Some [r]
                /\ Tab.id r = "id-b")
  /\ Forall (fun r => Tab.id r <> "id-a")
            (default [] (Storage.tabs (App.chrome_local a3))).
Proof.
  vm_compute. split; [|split].
  - eexists. split; [reflexivity|]. split; reflexivity.
  - eexists. split; reflexivity.
  - repeat constructor. discriminate.
Qed.

Lemma published_lists_hold_no_tombstone_witness :
  App.published_clean
    (App.step
       (App.run [ App.addTab (Sample.new_tab "a" "A") "id-a"
                             "2024-02-01T10:00:00.000Z";
                  App.deleteTab "id-a" "2024-02-01T10:00:01.000Z" ]
                (App.boot Storage.empty true))
       App.loadTabs).
Proof.
  apply (proj2 (published_lists_hold_no_tombstone Storage.empty true [])).
  apply (proj1 (published_lists_hold_no_tombstone Storage.empty true _)).
Defined.

(** * Further properties of the session store and the gateway *)

Section SessionLifecycle.
Import AuthStore.


Lemma to_Number_safe (n : Z) :
  Z.abs n <= JS.MAX_SAFE_INTEGER -> JS.to_Number n = n.
Proof.
  intros H. unfold JS.to_Number.
  assert ((Z.abs n <=? JS.MAX_SAFE_INTEGER + 1) = true) as ->
    by (apply Z.leb_le; lia).
  reflexivity.
Qed.

(** As long as the lifetime in milliseconds and the expiry instant are safe
    integers, the arithmetic of [setAuth] is exact. *)
Lemma setAuth_expiry_exact (expiresIn saved_at : Z) :
  Z.abs (expiresIn * 1000) <= JS.MAX_SAFE_INTEGER ->
  Z.abs (saved_at + expiresIn * 1000) <= JS.MAX_SAFE_INTEGER ->
  JS.Number_add saved_at (JS.Number_mul expiresIn 1000)
  = saved_at + expiresIn * 1000.
Proof.
  intros Hms Hexp. unfold JS.Number_add, JS.Number_mul.
  rewrite (to_Number_safe _ Hms). apply to_Number_safe, Hexp.
Qed.

(** X2. A session written by [setAuth] is restored by [loadAuth] in a
    freshly started store as long as the clock has not passed the expiry
    instant: user, token and expiry are the ones given, the session counts
    as authenticated exactly when the token is a non-empty string, and the
    loading flag is cleared.  The clock at the save, the lifetime in
    milliseconds and the expiry instant are safe integers. *)
Theorem setAuth_then_loadAuth
    (w : World t) (user : User.t) (accessToken : string) (expiresIn : Z)
    (saved_at loaded_at : Z) (restarted : t)
    (Hok : local_ok w = true)
    (Hnow : Z.abs saved_at <= JS.MAX_SAFE_INTEGER)
    (Hms : Z.abs (expiresIn * 1000) <= JS.MAX_SAFE_INTEGER)
    (Hexp : Z.abs (saved_at + expiresIn * 1000) <= JS.MAX_SAFE_INTEGER)
    (Hlive : loaded_at <= saved_at + expiresIn * 1000) :
  let stored := local (snd (setAuth user accessToken expiresIn saved_at w)) in
  loadAuth loaded_at (mkWorld restarted stored true)
  = (Returned tt,
     mkWorld (mk (Some user) (Some accessToken)
                 (Some (saved_at + expiresIn * 1000))
                 (JS.truthy_string (Some accessToken)) false)
             stored true).
Proof.
  unfold setAuth, loadAuth. rewrite (setAuth_expiry_exact _ _ Hms Hexp).
  run_action. rewrite Hok. simpl.
  assert ((loaded_at >? saved_at + expiresIn * 1000) = false) as ->.
  { rewrite Z.gtb_ltb. apply Z.ltb_ge. exact Hlive. }
  rewrite andb_false_r. reflexivity.
Qed.

(** X3. After a successful [setAuth] the token counts as not expired
    exactly up to and including the instant [now + expiresIn * 1000],
    provided that instant is not 0.  The clock at the save, the lifetime in
    milliseconds and the expiry instant are safe integers. *)
Theorem setAuth_token_lifetime
    (w : World t) (user : User.t) (accessToken : string) (expiresIn : Z)
    (saved_at : Z) (asked_at : Z)
    (Hok : local_ok w = true)
    (Hnow : Z.abs saved_at <= JS.MAX_SAFE_INTEGER)
    (Hms : Z.abs (expiresIn * 1000) <= JS.MAX_SAFE_INTEGER)
    (Hexp : Z.abs (saved_at + expiresIn * 1000) <= JS.MAX_SAFE_INTEGER) :
  isTokenExpired (state (snd (setAuth user accessToken expiresIn saved_at w)))
                 asked_at = false
  <-> saved_at + expiresIn * 1000 <> 0
      /\ asked_at <= saved_at + expiresIn * 1000.
Proof.
  unfold setAuth, isTokenExpired. rewrite (setAuth_expiry_exact _ _ Hms Hexp).
  run_action. rewrite Hok. simpl.
  destruct (saved_at + expiresIn * 1000) as [|p|p] eqn:E; simpl.
  - split; [discriminate|]. intros [H _]. congruence.
  - rewrite Z.gtb_ltb, Z.ltb_ge. split; [intros H; split; [discriminate|exact H]|tauto].
  - rewrite Z.gtb_ltb, Z.ltb_ge. split; [intros H; split; [discriminate|exact H]|tauto].
Qed.

(** X4. [loadAuth] never throws.  When the storage area rejects the read
    it leaves user, token, expiry and the authenticated flag as they were
    and clears the loading flag. *)
Theorem loadAuth_never_throws (w : World t) (Date_now : Z) :
  fst (loadAuth Date_now w) = Returned tt
  /\ (local_ok w = false ->
      snd (loadAuth Date_now w)
      = mkWorld (mk (user (state w)) (access_token (state w))
                    (token_expires_at (state w)) (is_authenticated (state w))
                    false)
                (local w) false).
Proof.
  unfold loadAuth, logout. run_action.
  destruct (local_ok w) eqn:Hok; simpl.
  - split; [|discriminate].
    destruct (JS.truthy_number _ && _); simpl; rewrite ?Hok; reflexivity.
  - split; [reflexivity|]. intros _. reflexivity.
Qed.

(** X5. When the storage area rejects writes, [setAuth] and [logout] throw
    and change neither the session nor the storage area. *)
Theorem session_write_failure
    (w : World t) (user : User.t) (accessToken : string)
    (expiresIn Date_now : Z)
    (Hfail : local_ok w = false) :
  setAuth user accessToken expiresIn Date_now w = (Threw StorageRejected, w)
  /\ logout w = (Threw StorageRejected, w).
Proof.
  unfold setAuth, logout. run_action. rewrite Hfail. split; reflexivity.
Qed.
End SessionLifecycle.


Lemma setAuth_then_loadAuth_witness :
  AuthStore.is_authenticated
    (state (snd (AuthStore.loadAuth 4000
                   (mkWorld AuthStore.initial
                      (local (snd (AuthStore.setAuth Sample.user "token" 3
                                     1000 Sample.signed_out)))
                      true))))
  = true.
Proof.
  rewrite (setAuth_then_loadAuth Sample.signed_out Sample.user "token" 3
             1000 4000 AuthStore.initial eq_refl);
    [reflexivity|apply Z.leb_le; reflexivity..].
Defined.

Lemma setAuth_token_lifetime_witness :
  AuthStore.isTokenExpired
    (state (snd (AuthStore.setAuth Sample.user "token" 3 1000
                   Sample.signed_out))) 4000
  = false.
Proof.
  assert (forall n, (n <=? JS.MAX_SAFE_INTEGER) = true
                    -> n <= JS.MAX_SAFE_INTEGER) as safe
    by (intros n; apply Z.leb_le).
  apply (proj2 (setAuth_token_lifetime Sample.signed_out Sample.user "token"
                  3 1000 4000 eq_refl (safe (Z.abs 1000) eq_refl)
                  (safe (Z.abs (3 * 1000)) eq_refl)
                  (safe (Z.abs (1000 + 3 * 1000)) eq_refl))).
  split; [discriminate|apply Z.leb_le; reflexivity].
Defined.

Lemma session_write_failure_witness :
  AuthStore.logout (mkWorld AuthStore.initial Storage.empty false)
  = (Threw StorageRejected, mkWorld AuthStore.initial Storage.empty false).
Proof.
  apply (proj2 (session_write_failure
                  (mkWorld AuthStore.initial Storage.empty false)
                  Sample.user "token" 3 1000 eq_refl)).
Defined.

Section GatewayBehaviour.
Import ApiClient.
Context {Json : Type}.
Variable truthy : Json -> bool.
Variable JSON_stringify : Json -> string.
Variable empty_object : Json.
Variable message_object : string -> Json.
Variable fetch : NetworkCall -> option (@Response Json).

Let send := request truthy JSON_stringify empty_object message_object fetch.

(** X6. Once [logout] has succeeded, every request that requires
    authentication fails with status 401 and reaches no network. *)
Theorem logout_blocks_protected_requests
    (w : World AuthStore.t) (baseUrl method endpoint : string)
    (data : option Json) (options : RequestOptions) (Date_now : Z)
    (Hok : local_ok w = true)
    (Hflag : requiresAuth options = Some true) :
  send baseUrl method endpoint data options
       (state (snd (AuthStore.logout w))) Date_now
  = (inl (ApiError 401 (message_object "Not authenticated")), []).
Proof.
  unfold send, request, AuthStore.logout. run_action.
  rewrite Hok, Hflag. reflexivity.
Qed.

(** X7. A request that does not require authentication never reads the
    session: whatever the session holds, it issues exactly one network call,
    to [baseUrl + endpoint] with the given method, whose only header is the
    JSON content type and whose body is the serialized data when the data
    is truthy and absent otherwise. *)
Theorem public_request_sends_no_credentials
    (baseUrl method endpoint : string) (data : option Json)
    (options : RequestOptions) (auth : AuthStore.t) (Date_now : Z)
    (Hflag : JS.truthy_bool (requiresAuth options) = false) :
  snd (send baseUrl method endpoint data options auth Date_now)
  = [ mk_call (baseUrl +:+ endpoint)
        (mk_init method [("Content-Type", "application/json")]
           (match data with
            | Some d => if truthy d then Some (JSON_stringify d) else None
            | None => None
            end)) ].
Proof.
  unfold send, request. rewrite Hflag.
  destruct (fetch _) as [r|]; [|reflexivity].
  destruct (negb (ok r)); [reflexivity|].
  destruct (status r =? 204); [reflexivity|].
  destruct (json r); reflexivity.
Qed.

(** X8. How a request ends.  It issues at most one network call.  It
    resolves only on a response with a status from 200 to 299: with the
    empty object for status 204, whose body is never read, and with the
    parsed body otherwise.  Every [ApiError] it throws carries either 401
    from the local authentication check, with no network call made, or the
    status of a response outside 200 to 299 together with its parsed body,
    the empty object standing in for a body that does not parse. *)
Theorem request_outcomes
    (baseUrl method endpoint : string) (data : option Json)
    (options : RequestOptions) (auth : AuthStore.t) (Date_now : Z) :
  let r := send baseUrl method endpoint data options auth Date_now in
  (length (snd r) <= 1)%nat
  /\ (forall v, fst r = inr v ->
        exists call response,
          snd r = [call] /\ fetch call = Some response
          /\ 200 <= status response <= 299
          /\ (status response = 204 -> v = empty_object)
          /\ (status response <> 204 -> json response = Some v))
  /\ (forall code payload, fst r = inl (ApiError code payload) ->
        (snd r = [] /\ code = 401
         /\ payload = message_object "Not authenticated")
        \/ (exists call response,
              snd r = [call] /\ fetch call = Some response
              /\ status response = code
              /\ (code < 200 \/ 299 < code)
              /\ payload = default empty_object (json response))).
Proof.
  unfold send, request. simpl.
  destruct (if JS.truthy_bool (requiresAuth options) then _ else _)
    as [e|hs] eqn:G.
  - simpl. split; [lia|]. split; [discriminate|].
    intros code payload [= ->]. left.
    destruct (JS.truthy_bool (requiresAuth options)); [|discriminate].
    destruct (negb _ || _); [|discriminate].
    injection G as <- <-. repeat split.
  - match goal with |- context [fetch ?c] => set (call := c) end.
    destruct (fetch call) as [resp|] eqn:F; simpl.
    + destruct (negb (ok resp)) eqn:Hokr; simpl.
      * split; [lia|]. split; [discriminate|].
        intros code payload [= <- <-]. right. exists call, resp.
        repeat split; try assumption.
        unfold ok in Hokr. apply negb_true_iff, andb_false_iff in Hokr.
        destruct Hokr as [H|H]; apply Z.leb_gt in H; lia.
      * apply negb_false_iff in Hokr. unfold ok in Hokr.
        apply andb_true_iff in Hokr as [H1 H2].
        apply Z.leb_le in H1, H2.
        destruct (status resp =? 204) eqn:E204; simpl.
        -- apply Z.eqb_eq in E204. split; [lia|]. split; [|discriminate].
           intros v [= <-]. exists call, resp. repeat split; try assumption.
           all: intros Hne; congruence.
        -- apply Z.eqb_neq in E204.
           destruct (json resp) as [v0|] eqn:J; simpl;
             (split; [lia|]); (split; [|discriminate]).
           ++ intros v [= <-]. exists call, resp.
              repeat split; try assumption. all: intros E; congruence.
           ++ discriminate.
    + split; [lia|]. split; discriminate.
Qed.

End GatewayBehaviour.

(** * Further properties of the signed authentication flows *)

Section AuthFlows.
Import ApiClient AuthApi.
Variable VITE_API_BASE_URL : option string.
Variable VITE_SIGNATURE_SECRET : option string.
Variable JSON_stringify : Json.t -> string.
Variable fetch : NetworkCall -> option (@Response Json.t).

Lemma apiClient_post_call auth Date_now endpoint (fields : list (string * Json.t)) :
  snd (apiClient_post VITE_API_BASE_URL JSON_stringify fetch auth Date_now
         endpoint (Json.Object fields))
  = [ mk_call (API_BASE_URL VITE_API_BASE_URL +:+ endpoint)
        (mk_init "POST" [("Content-Type", "application/json")]
           (Some (JSON_stringify (Json.Object fields)))) ].
Proof.
  unfold apiClient_post, post, request. simpl.
  destruct (fetch _) as [r|]; [|reflexivity].
  destruct (negb (ok r)); [reflexivity|].
  destruct (status r =? 204); [reflexivity|].
  destruct (json r); reflexivity.
Qed.

(** X9. Whatever the session holds, signed in or not, each of the three
    authentication flows issues exactly one request: a POST to its endpoint
    under the base URL, with the content type as its only header, so without
    an [Authorization] header, whose body is the serialized object of the
    email, the flow's own fields, the nonce the environment handed out, the
    current time in whole seconds as [auth_at], and the signature computed
    over that email, that nonce and that [auth_at] for the purpose given
    (send-code), ["login"] or ["register"].  The clock reading is a safe
    integer, as a time value is. *)
Theorem auth_flows_send_signed_public_posts
    (auth : AuthStore.t) (nonce : string) (Date_now : Z)
    (email code password : string) (purpose : purpose_t)
    (Hclock : Z.abs Date_now <= JS.MAX_SAFE_INTEGER) :
  exists authAt : Z,
    1000 * authAt <= Date_now < 1000 * authAt + 1000
    /\ let post_of (endpoint : string) (fields : list (string * Json.t)) :=
         [ mk_call (API_BASE_URL VITE_API_BASE_URL +:+ endpoint)
             (mk_init "POST" [("Content-Type", "application/json")]
                (Some (JSON_stringify (Json.Object fields)))) ] in
       let signature_for (purpose : string) :=
         Json.String (Signature.generateSignature VITE_SIGNATURE_SECRET email
                        nonce authAt purpose) in
       snd (sendVerificationCode VITE_API_BASE_URL VITE_SIGNATURE_SECRET
              JSON_stringify fetch auth nonce Date_now email purpose)
       = post_of "/auth/v1/verification-code/send"
           [ ("email", Json.String email);
             ("purpose", Json.String (purpose_string purpose));
             ("nonce", Json.String nonce);
             ("auth_at", Json.Number authAt);
             ("signature", signature_for (purpose_string purpose)) ]
       /\ snd (loginWithVerificationCode VITE_API_BASE_URL
                 VITE_SIGNATURE_SECRET JSON_stringify fetch auth nonce
                 Date_now email code)
          = post_of "/auth/v1/login/verification-code"
              [ ("email", Json.String email);
                ("code", Json.String code);
                ("nonce", Json.String nonce);
                ("auth_at", Json.Number authAt);
                ("signature", signature_for "login") ]
       /\ snd (register VITE_API_BASE_URL VITE_SIGNATURE_SECRET
                 JSON_stringify fetch auth nonce Date_now email code password)
          = post_of "/auth/v1/register"
              [ ("email", Json.String email);
                ("code", Json.String code);
                ("password", Json.String password);
                ("nonce", Json.String nonce);
                ("auth_at", Json.Number authAt);
                ("signature", signature_for "register") ]
       /\ forall endpoint fields,
            Forall (fun call =>
                      headers_get "Authorization" (headers (init call)) = None)
                   (post_of endpoint fields).
Proof.
  exists (DateUtil.nowUnix Date_now). split.
  - unfold DateUtil.nowUnix.
    pose proof (Z.mul_div_le Date_now 1000 ltac:(lia)).
    pose proof (Z.mul_succ_div_gt Date_now 1000 ltac:(lia)). lia.
  - unfold sendVerificationCode, loginWithVerificationCode, register.
    cbv zeta. simpl snd. rewrite !apiClient_post_call.
    repeat split. intros endpoint fields. repeat constructor.
Qed.
End AuthFlows.

Lemma auth_flows_send_signed_public_posts_witness :
  snd (AuthApi.loginWithVerificationCode None None Sample.stringify_stub
         Sample.network_ok AuthStore.initial "nonce-1" 1700000000123
         "ada@example.test" "123456")
  = [ ApiClient.mk_call "http://localhost:8000/auth/v1/login/verification-code"
        (ApiClient.mk_init "POST" [("Content-Type", "application/json")]
           (Some (Sample.stringify_stub
                    (Json.Object
                       [ ("email", Json.String "ada@example.test");
                         ("code", Json.String "123456");
                         ("nonce", Json.String "nonce-1");
                         ("auth_at", Json.Number 1700000000);
                         ("signature",
                          Json.String
                            (Signature.generateSignature None
                               "ada@example.test" "nonce-1" 1700000000
                               "login")) ])))) ].
Proof.
  assert (Z.abs 1700000000123 <= JS.MAX_SAFE_INTEGER) as Hclock
    by (apply Z.leb_le; reflexivity).
  destruct (auth_flows_send_signed_public_posts None None
              Sample.stringify_stub Sample.network_ok AuthStore.initial
              "nonce-1" 1700000000123 "ada@example.test" "123456" ""
              AuthApi.for_login Hclock)
    as (authAt & Hwhole & _ & Hlogin & _).
  assert (authAt = 1700000000) as -> by lia.
  rewrite Hlogin. reflexivity.
Defined.

Section SignatureEncoding.
Import Signature SignatureSpec.
Local Open Scope N_scope.

(** X10. The canonical string does not escape its separator: moving a
    colon-delimited piece from the end of the email to the start of the
    nonce leaves the signature unchanged. *)
Theorem generateSignature_separator_collision
    (VITE_SIGNATURE_SECRET : option string)
    (a b c : string) (authAt : Z) (purpose : string) :
  generateSignature VITE_SIGNATURE_SECRET (a +:+ ":" +:+ b) c authAt purpose
  = generateSignature VITE_SIGNATURE_SECRET a (b +:+ ":" +:+ c) authAt purpose.
Proof.
  unfold generateSignature. do 4 f_equal.
  assert (forall x y z : string,
             ((x +:+ y) +:+ z = x +:+ (y +:+ z))%string) as assoc.
  { intros x y z. induction x as [|ch x IH]; [reflexivity|].
    change (String ch ((x +:+ y) +:+ z) = String ch (x +:+ (y +:+ z)))%string.
    f_equal. exact IH. }
  rewrite !assoc. reflexivity.
Qed.

Lemma lower_hex_alphabet_NoDup : List.NoDup lower_hex_alphabet.
Proof. apply NoDup_ListNoDup, (bool_decide_unpack _). vm_compute. exact I. Qed.

Lemma hex_digit_inj (d e : N) :
  d < 16 -> e < 16 -> hex_digit d = hex_digit e -> d = e.
Proof.
  intros Hd He H. unfold hex_digit in H.
  apply N2Nat.inj.
  apply (proj1 (List.NoDup_nth lower_hex_alphabet "0"%char)
               lower_hex_alphabet_NoDup);
    [change (length lower_hex_alphabet) with 16%nat; lia
    |change (length lower_hex_alphabet) with 16%nat; lia
    |exact H].
Qed.

(** X11. The hexadecimal rendering of a byte string loses nothing: two
    lists of bytes that render to the same string are the same list. *)
Theorem hex_rendering_injective (l k : list N)
    (Hl : Forall (fun b => b < 256) l)
    (Hk : Forall (fun b => b < 256) k)
    (Heq : String.concat "" (List.map byte_to_hex l)
           = String.concat "" (List.map byte_to_hex k)) :
  l = k.
Proof.
  rewrite !hex_of_bytes in Heq by assumption. unfold hex_lower in Heq.
  apply (f_equal list_ascii_of_string) in Heq.
  rewrite !list_ascii_of_string_of_list_ascii in Heq.
  revert k Hk Heq. induction Hl as [|b l Hb Hl IH]; intros k Hk Heq.
  - destruct k; [reflexivity|discriminate].
  - destruct Hk as [|c k Hc Hk]; [discriminate|].
    simpl in Heq. injection Heq as Hhi Hlo Hrest.
    f_equal; [|apply IH; assumption].
    apply hex_digit_inj in Hhi;
      [|apply N.Div0.div_lt_upper_bound; lia..].
    apply hex_digit_inj in Hlo; [|apply N.mod_lt; discriminate..].
    rewrite (N.div_mod b 16), (N.div_mod c 16) by discriminate.
    rewrite Hhi, Hlo. reflexivity.
Qed.
End SignatureEncoding.

Lemma hex_rendering_injective_witness : [1%N; 16%N] = [1%N; 16%N].
Proof.
  apply hex_rendering_injective.
  - repeat constructor.
  - repeat constructor.
  - reflexivity.
Defined.

(** * Further properties of the entity stores *)

(** X12. [getTabsByCollection] and [getCollectionsBySpace] list exactly
    the non-deleted records of the given parent that the store publishes,
    each as often as it is published, in ascending order of their [order]
    fields. *)
Theorem listings_are_sorted_live_records :
  (forall (s : TabStore.t) (c : string),
      StronglySorted (fun a b => Tab.order a <= Tab.order b)
                     (TabStore.getTabsByCollection s c)
      /\ TabStore.getTabsByCollection s c
         ≡ₚ TabStore.live_in_collection c (TabStore.tabs s)
      /\ (forall x, x ∈ TabStore.getTabsByCollection s c
                    <-> x ∈ TabStore.tabs s /\ Tab.collection_id x = c
                        /\ Tab.is_deleted x <> Some true))
  /\ (forall (s : CollectionStore.t) (sp : string),
        StronglySorted (fun a b => Collection.order a <= Collection.order b)
                       (CollectionStore.getCollectionsBySpace s sp)
        /\ CollectionStore.getCollectionsBySpace s sp
           ≡ₚ CollectionStore.live_in_space sp (CollectionStore.collections s)
        /\ (forall x, x ∈ CollectionStore.getCollectionsBySpace s sp
                      <-> x ∈ CollectionStore.collections s
                          /\ Collection.space_id x = sp
                          /\ Collection.is_deleted x <> Some true)).
Proof.
  split.
  - intros s c. unfold TabStore.getTabsByCollection.
    split; [apply (Array_sort_sorted Tab.order)|].
    split; [apply (Array_sort_Permutation Tab.order)|].
    intros x. rewrite (Array_sort_Permutation Tab.order).
    unfold TabStore.live_in_collection. rewrite list_elem_of_filter.
    unfold TabStore.visible, TabStore.not_deleted.
    destruct (Tab.is_deleted x) as [[|]|]; simpl; intuition congruence.
  - intros s sp. unfold CollectionStore.getCollectionsBySpace.
    split; [apply (Array_sort_sorted Collection.order)|].
    split; [apply (Array_sort_Permutation Collection.order)|].
    intros x. rewrite (Array_sort_Permutation Collection.order).
    unfold CollectionStore.live_in_space. rewrite list_elem_of_filter.
    unfold CollectionStore.visible, CollectionStore.not_deleted.
    destruct (Collection.is_deleted x) as [[|]|]; simpl; intuition congruence.
Qed.

Section TabStorePersistence.
Import TabStore.

Lemma filter_visible_all (l : list Tab.t) :
  Forall visible l -> filter visible l = l.
Proof.
  induction 1 as [|x l Hx Hl IH]; [reflexivity|].
  rewrite filter_cons, IH. destruct (decide (visible x)); tauto.
Qed.

Lemma persisted_clean (w : World t) :
  persisted w -> Forall visible (tabs (state w)).
Proof.
  unfold persisted. intros <-. apply Forall_forall. intros x Hx.
  apply list_elem_of_filter in Hx. tauto.
Qed.

Lemma updateTab_persisted id input now w :
  persisted w -> persisted (snd (updateTab id input now w)).
Proof.
  intros H. pose proof (persisted_clean w H) as Hc.
  unfold updateTab. run_action.
  destruct (list_find _ _) as [[i x]|] eqn:E; simpl; [|exact H].
  destruct (local_ok w); simpl; [|exact H].
  unfold persisted. simpl. apply filter_visible_all.
  apply list_find_Some in E as (Hi & _ & _).
  apply Forall_insert; [exact Hc|].
  apply spread_visible. eapply Forall_lookup_1; eauto.
Qed.

Lemma addTab_persisted input uuid now w :
  persisted w -> persisted (snd (addTab input uuid now w)).
Proof.
  intros H. pose proof (persisted_clean w H) as Hc.
  unfold addTab, bind at 1, get. simpl.
  destruct (_ <=? _); [exact H|].
  destruct (list_find _ _) as [[i x]|]; [apply updateTab_persisted, H|].
  run_action. destruct (local_ok w); simpl; [|exact H].
  unfold persisted. simpl. apply filter_visible_all.
  apply Forall_app. split; [exact Hc|]. repeat constructor.
Qed.

Lemma deleteTab_persisted id now w :
  persisted w -> persisted (snd (deleteTab id now w)).
Proof.
  intros H. unfold deleteTab. run_action.
  destruct (list_find _ _); simpl; [|exact H].
  destruct (local_ok w); simpl; [|exact H]. reflexivity.
Qed.

Lemma moveTab_persisted id target now w :
  persisted w -> persisted (snd (moveTab id target now w)).
Proof.
  intros H. unfold moveTab, bind at 1, get. simpl.
  destruct (list_find _ _); [|exact H].
  destruct (_ <=? _); [exact H|].
  pose proof (updateTab_persisted id
    (UpdateTabInput.mk None None None None
       (Some (Z.of_nat (length (in_collection target (tabs (state w))))))
       None (Some target)) now w H) as H'.
  unfold bind. destruct (updateTab _ _ _ w) as [[r|e] w']; exact H'.
Qed.

Lemma loadTabs_persisted w : persisted w -> persisted (snd (loadTabs w)).
Proof.
  intros H. unfold loadTabs. run_action.
  destruct (local_ok w); simpl; [reflexivity|exact H].
Qed.

(** X13. Write-through keeps memory and storage in step.  In a tab store
    whose published list is what a load of the stored list would publish,
    every operation, whether it succeeds, throws or finds storage failing,
    leaves the store in such a state again; and there a reload that can
    read the storage area publishes the very list that is already
    published. *)
Theorem tab_store_reload_round_trip
    (w : World t) (input : CreateTabInput.t) (patch : UpdateTabInput.t)
    (id target uuid now : string)
    (Hsync : persisted w) :
  persisted (snd (loadTabs w))
  /\ persisted (snd (addTab input uuid now w))
  /\ persisted (snd (updateTab id patch now w))
  /\ persisted (snd (deleteTab id now w))
  /\ persisted (snd (moveTab id target now w))
  /\ (local_ok w = true ->
      tabs (state (snd (loadTabs w))) = tabs (state w)).
Proof.
  repeat split.
  - apply loadTabs_persisted, Hsync.
  - apply addTab_persisted, Hsync.
  - apply updateTab_persisted, Hsync.
  - apply deleteTab_persisted, Hsync.
  - apply moveTab_persisted, Hsync.
  - intros Hok. unfold loadTabs. run_action. rewrite Hok. simpl.
    exact Hsync.
Qed.

Lemma updateTab_ids id input now w :
  Tab.id <$> tabs (state (snd (updateTab id input now w)))
  = Tab.id <$> tabs (state w).
Proof.
  unfold updateTab. run_action.
  destruct (list_find _ _) as [[i x]|] eqn:E; simpl; [|reflexivity].
  destruct (local_ok w); simpl; [|reflexivity].
  apply list_find_Some in E as (Hi & _ & _).
  rewrite list_fmap_insert. simpl. apply list_insert_id.
  rewrite list_lookup_fmap, Hi. reflexivity.
Qed.

Lemma moveTab_ids id target now w :
  Tab.id <$> tabs (state (snd (moveTab id target now w)))
  = Tab.id <$> tabs (state w).
Proof.
  unfold moveTab, bind at 1, get. simpl.
  destruct (list_find _ _); [|reflexivity].
  destruct (_ <=? _); [reflexivity|].
  pose proof (updateTab_ids id
    (UpdateTabInput.mk None None None None
       (Some (Z.of_nat (length (in_collection target (tabs (state w))))))
       None (Some target)) now w) as H'.
  unfold bind. destruct (updateTab _ _ _ w) as [[r|e] w']; exact H'.
Qed.

Lemma deleteTab_ids_sublist id now w :
  (Tab.id <$> tabs (state (snd (deleteTab id now w))))
    `sublist_of` (Tab.id <$> tabs (state w)).
Proof.
  unfold deleteTab. run_action.
  destruct (list_find _ _); simpl; [|reflexivity].
  destruct (local_ok w); simpl; [|reflexivity].
  assert (Tab.id <$> List.map (fun x => if decide (Tab.id x = id)
                                        then tombstone x now else x)
                              (tabs (state w))
          = Tab.id <$> tabs (state w)) as <-.
  { induction (tabs (state w)) as [|a l IH]; [reflexivity|].
    cbn [List.map]. rewrite !fmap_cons. f_equal; [|exact IH].
    destruct (decide (Tab.id a = id)); reflexivity. }
  apply fmap_sublist, sublist_filter.
Qed.

(** X14. Identifiers stay unique.  When the published tabs have pairwise
    different identifiers, they still have after an update, a delete or a
    move, and after an add whose fresh identifier is not among them; an
    update or a move never changes the list of identifiers at all. *)
Theorem tab_identifiers_stay_unique
    (w : World t) (input : CreateTabInput.t) (patch : UpdateTabInput.t)
    (id target uuid now : string)
    (Hids : NoDup (Tab.id <$> tabs (state w)))
    (Hfresh : uuid ∉ Tab.id <$> tabs (state w)) :
  NoDup (Tab.id <$> tabs (state (snd (addTab input uuid now w))))
  /\ NoDup (Tab.id <$> tabs (state (snd (deleteTab id now w))))
  /\ Tab.id <$> tabs (state (snd (updateTab id patch now w)))
     = Tab.id <$> tabs (state w)
  /\ Tab.id <$> tabs (state (snd (moveTab id target now w)))
     = Tab.id <$> tabs (state w).
Proof.
  split; [|split; [|split]].
  - unfold addTab, bind at 1, get. simpl.
    destruct (_ <=? _); [exact Hids|].
    destruct (list_find _ _) as [[i x]|]; [rewrite updateTab_ids; exact Hids|].
    run_action. destruct (local_ok w); simpl; [|exact Hids].
    rewrite fmap_app. apply NoDup_app. split; [exact Hids|]. split.
    + intros y Hy Hin. apply list_elem_of_singleton in Hin. subst y.
      exact (Hfresh Hy).
    + apply NoDup_singleton.
  - eapply sublist_NoDup; [exact Hids|apply deleteTab_ids_sublist].
  - apply updateTab_ids.
  - apply moveTab_ids.
Qed.
End TabStorePersistence.

Lemma tab_store_reload_round_trip_witness :
  TabStore.tabs (state (snd (TabStore.loadTabs (Sample.world 3))))
  = TabStore.tabs (state (Sample.world 3)).
Proof.
  apply (tab_store_reload_round_trip (Sample.world 3)
           (Sample.new_tab "a" "A") (Sample.rename "B") "tab-1" "reading"
           "id-a" "2024-02-01T10:00:00.000Z");
    reflexivity.
Defined.

Lemma tab_identifiers_stay_unique_witness :
  NoDup (Tab.id <$> TabStore.tabs
           (state (snd (TabStore.addTab (Sample.new_tab "a" "A") "id-a"
                          "2024-02-01T10:00:00.000Z" (Sample.world 3))))).
Proof.
  assert (NoDup (Tab.id <$> TabStore.tabs (state (Sample.world 3)))) as Hids
    by (apply (bool_decide_unpack _); vm_compute; exact I).
  assert ("id-a" ∉ Tab.id <$> TabStore.tabs (state (Sample.world 3))) as Hfresh
    by (apply (bool_decide_unpack _); vm_compute; exact I).
  apply (tab_identifiers_stay_unique (Sample.world 3) (Sample.new_tab "a" "A")
           (Sample.rename "B") "tab-1" "reading" "id-a"
           "2024-02-01T10:00:00.000Z" Hids Hfresh).
Defined.

Section DeleteBehaviour.

Lemma deleteTab_absent (w : World TabStore.t) id now :
  list_find (fun x => Tab.id x = id) (TabStore.tabs (state w)) = None ->
  TabStore.deleteTab id now w = (Returned tt, w).
Proof.
  intros H. unfold TabStore.deleteTab. run_action. rewrite H. reflexivity.
Qed.

Lemma deleteCollection_absent (w : World CollectionStore.t) id now :
  list_find (fun x => Collection.id x = id)
            (CollectionStore.collections (state w)) = None ->
  CollectionStore.deleteCollection id now w = (Returned tt, w).
Proof.
  intros H. unfold CollectionStore.deleteCollection. run_action.
  rewrite H. reflexivity.
Qed.

Lemma deleteSpace_absent (w : World SpaceStore.t) id now :
  list_find (fun x => Space.id x = id) (SpaceStore.spaces (state w)) = None ->
  SpaceStore.deleteSpace id now w = (Returned tt, w).
Proof.
  intros H. unfold SpaceStore.deleteSpace. run_action. rewrite H. reflexivity.
Qed.

(** X15. Deleting is idempotent in each of the three stores: a second
    delete of the same identifier, whatever the first one did, leaves the
    store's state and the storage area as the first one left them. *)
Theorem delete_is_idempotent :
  (forall (w : World TabStore.t) id now now',
      snd (TabStore.deleteTab id now' (snd (TabStore.deleteTab id now w)))
      = snd (TabStore.deleteTab id now w))
  /\ (forall (w : World CollectionStore.t) id now now',
        snd (CollectionStore.deleteCollection id now'
               (snd (CollectionStore.deleteCollection id now w)))
        = snd (CollectionStore.deleteCollection id now w))
  /\ (forall (w : World SpaceStore.t) id now now',
        snd (SpaceStore.deleteSpace id now'
               (snd (SpaceStore.deleteSpace id now w)))
        = snd (SpaceStore.deleteSpace id now w)).
Proof.
  split; [|split]; intros w id now now'.
  - destruct (list_find (fun x => Tab.id x = id) (TabStore.tabs (state w)))
      as [p|] eqn:E.
    + destruct (local_ok w) eqn:Hok.
      * rewrite deleteTab_absent; [reflexivity|].
        apply list_find_None.
        unfold TabStore.deleteTab. run_action. rewrite E. simpl.
        rewrite Hok. simpl.
        apply (tombstoned_id_gone Tab.id (fun x => TabStore.tombstone x now)).
        intros x. unfold TabStore.visible, TabStore.not_deleted. simpl.
        discriminate.
      * assert (TabStore.deleteTab id now w = (Threw StorageRejected, w)) as E1.
        { unfold TabStore.deleteTab. run_action. rewrite E. simpl.
          rewrite Hok. reflexivity. }
        rewrite E1. simpl.
        unfold TabStore.deleteTab. run_action. rewrite E. simpl.
        rewrite Hok. reflexivity.
    + rewrite (deleteTab_absent w id now E). simpl.
      rewrite (deleteTab_absent w id now' E). reflexivity.
  - destruct (list_find (fun x => Collection.id x = id)
                        (CollectionStore.collections (state w)))
      as [p|] eqn:E.
    + destruct (local_ok w) eqn:Hok.
      * rewrite deleteCollection_absent; [reflexivity|].
        apply list_find_None.
        unfold CollectionStore.deleteCollection. run_action. rewrite E. simpl.
        rewrite Hok. simpl.
        apply (tombstoned_id_gone Collection.id
                 (fun x => CollectionStore.tombstone x now)).
        intros x. unfold CollectionStore.visible, CollectionStore.not_deleted.
        simpl. discriminate.
      * assert (CollectionStore.deleteCollection id now w
                = (Threw StorageRejected, w)) as E1.
        { unfold CollectionStore.deleteCollection. run_action. rewrite E.
          simpl. rewrite Hok. reflexivity. }
        rewrite E1. simpl.
        unfold CollectionStore.deleteCollection. run_action. rewrite E. simpl.
        rewrite Hok. reflexivity.
    + rewrite (deleteCollection_absent w id now E). simpl.
      rewrite (deleteCollection_absent w id now' E). reflexivity.
  - destruct (list_find (fun x => Space.id x = id) (SpaceStore.spaces (state w)))
      as [p|] eqn:E.
    + destruct (local_ok w) eqn:Hok.
      * rewrite deleteSpace_absent; [reflexivity|].
        apply list_find_None.
        rewrite (deleteSpace_spaces w id now Hok), E.
        apply (tombstoned_id_gone Space.id
                 (fun x => SpaceStore.tombstone x now)).
        intros x. unfold SpaceStore.visible, SpaceStore.not_deleted. simpl.
        discriminate.
      * assert (SpaceStore.deleteSpace id now w = (Threw StorageRejected, w))
          as E1.
        { unfold SpaceStore.deleteSpace. run_action. rewrite E. simpl.
          rewrite Hok. reflexivity. }
        rewrite E1. simpl.
        unfold SpaceStore.deleteSpace. run_action. rewrite E. simpl.
        rewrite Hok. reflexivity.
    + rewrite (deleteSpace_absent w id now E). simpl.
      rewrite (deleteSpace_absent w id now' E). reflexivity.
Qed.


End DeleteBehaviour.


(** X17. Nothing changes in memory before the write has succeeded.  When
    the storage area rejects writes, no add, update, delete or move of the
    three stores changes the store's state or the storage area, and no add
    or update returns a record. *)
Theorem failed_write_changes_nothing
    (tw : World TabStore.t) (cw : World CollectionStore.t)
    (sw : World SpaceStore.t)
    (tinput : CreateTabInput.t) (tpatch : UpdateTabInput.t)
    (cinput : CreateCollectionInput.t) (cpatch : UpdateCollectionInput.t)
    (sinput : CreateSpaceInput.t) (spatch : UpdateSpaceInput.t)
    (id target uuid now : string)
    (Htw : local_ok tw = false)
    (Hcw : local_ok cw = false)
    (Hsw : local_ok sw = false) :
  (snd (TabStore.addTab tinput uuid now tw) = tw
   /\ snd (TabStore.updateTab id tpatch now tw) = tw
   /\ snd (TabStore.deleteTab id now tw) = tw
   /\ snd (TabStore.moveTab id target now tw) = tw
   /\ (exists e, fst (TabStore.addTab tinput uuid now tw) = Threw e)
   /\ (exists e, fst (TabStore.updateTab id tpatch now tw) = Threw e))
  /\ (snd (CollectionStore.addCollection cinput uuid now cw) = cw
      /\ snd (CollectionStore.updateCollection id cpatch now cw) = cw
      /\ snd (CollectionStore.deleteCollection id now cw) = cw
      /\ (exists e, fst (CollectionStore.addCollection cinput uuid now cw)
                    = Threw e)
      /\ (exists e, fst (CollectionStore.updateCollection id cpatch now cw)
                    = Threw e))
  /\ (snd (SpaceStore.addSpace sinput uuid now sw) = sw
      /\ snd (SpaceStore.updateSpace id spatch now sw) = sw
      /\ snd (SpaceStore.deleteSpace id now sw) = sw
      /\ (exists e, fst (SpaceStore.addSpace sinput uuid now sw) = Threw e)
      /\ (exists e, fst (SpaceStore.updateSpace id spatch now sw) = Threw e)).
Proof.
  assert (forall patch, TabStore.updateTab id patch now tw
                        = (Threw StorageRejected, tw)
                        \/ TabStore.updateTab id patch now tw
                           = (Threw (Error "Tab not found"), tw)) as Hupd.
  { intros patch. unfold TabStore.updateTab. run_action.
    destruct (list_find _ _) as [[i x]|]; simpl; [|right; reflexivity].
    rewrite Htw. left. reflexivity. }
  assert (forall uid patch, TabStore.updateTab uid patch now tw
                        = (Threw StorageRejected, tw)
                        \/ TabStore.updateTab uid patch now tw
                           = (Threw (Error "Tab not found"), tw)) as Hupd'.
  { intros uid patch. unfold TabStore.updateTab. run_action.
    destruct (list_find _ _) as [[i x]|]; simpl; [|right; reflexivity].
    rewrite Htw. left. reflexivity. }
  split; [|split].
  - assert (exists e, TabStore.addTab tinput uuid now tw = (Threw e, tw)) as Ha.
    { unfold TabStore.addTab, bind at 1, get. simpl.
      destruct (_ <=? _); [eexists; reflexivity|].
      destruct (list_find _ _) as [[i x]|].
      - destruct (Hupd' (Tab.id x)
                    (UpdateTabInput.mk (Some (CreateTabInput.title tinput))
                       None (Some (CreateTabInput.favicon tinput))
                       None None None None)) as [-> | ->];
          eexists; reflexivity.
      - run_action. rewrite Htw. eexists; reflexivity. }
    destruct Ha as [ea Ha].
    assert (exists e, TabStore.updateTab id tpatch now tw = (Threw e, tw)) as Hu.
    { destruct (Hupd tpatch) as [-> | ->]; eexists; reflexivity. }
    destruct Hu as [eu Hu].
    rewrite Ha, Hu. simpl. repeat split; eauto.
    + unfold TabStore.deleteTab. run_action.
      destruct (list_find _ _); simpl; [rewrite Htw|]; reflexivity.
    + unfold TabStore.moveTab, bind at 1, get. simpl.
      destruct (list_find _ _); [|reflexivity].
      destruct (_ <=? _); [reflexivity|]. unfold bind.
      destruct (Hupd (UpdateTabInput.mk None None None None
                        (Some (Z.of_nat (length (TabStore.in_collection target
                                                   (TabStore.tabs (state tw))))))
                        None (Some target))) as [-> | ->]; reflexivity.
  - unfold CollectionStore.addCollection, CollectionStore.updateCollection,
      CollectionStore.deleteCollection. run_action. rewrite Hcw. simpl.
    destruct (list_find _ _) as [[i x]|]; simpl; rewrite ?Hcw; simpl;
      repeat split; eauto.
  - unfold SpaceStore.addSpace, SpaceStore.updateSpace, SpaceStore.deleteSpace.
    run_action. rewrite Hsw. simpl.
    destruct (list_find _ _) as [[i x]|]; simpl; rewrite ?Hsw; simpl;
      repeat split; eauto.
Qed.

Lemma failed_write_changes_nothing_witness :
  snd (TabStore.addTab (Sample.new_tab "a" "A") "id-a"
         "2024-02-01T10:00:00.000Z"
         (mkWorld TabStore.initial Storage.empty false))
  = mkWorld TabStore.initial Storage.empty false.
Proof.
  apply (failed_write_changes_nothing
           (mkWorld TabStore.initial Storage.empty false)
           (mkWorld CollectionStore.initial Storage.empty false)
           (mkWorld SpaceStore.initial Storage.empty false)
           (Sample.new_tab "a" "A") (Sample.rename "B")
           Sample.new_collection
           (UpdateCollectionInput.mk None None None None None None)
           (CreateSpaceInput.mk "Work" None None None)
           (UpdateSpaceInput.mk None None None None None)
           "tab-1" "reading" "id-a" "2024-02-01T10:00:00.000Z"
           eq_refl eq_refl eq_refl).
Defined.

Section ListingAfterAdds.
Import TabStore.

(** X18. In a collection that holds no tab yet, after a sequence of adds
    with pairwise different URLs (at most 1000 of them, the storage area
    accepting the writes), [getTabsByCollection] lists exactly the tabs the
    adds returned, in the order of the calls. *)
Theorem listing_after_adds_is_call_order
    (w : World t) (c : string)
    (batch : list (CreateTabInput.t * string * string))
    (Hok : local_ok w = true)
    (Hclean : Forall visible (tabs (state w)))
    (Hempty : in_collection c (tabs (state w)) = [])
    (Hsame : Forall (fun b => CreateTabInput.collection_id (fst (fst b)) = c)
                    batch)
    (Hurls : NoDup (batch_url <$> batch))
    (Hroom : Z.of_nat (length batch) <= MAX_TABS_PER_COLLECTION) :
  exists added,
    fst (addTabs batch w) = Returned added
    /\ length added = length batch
    /\ getTabsByCollection (state (snd (addTabs batch w))) c = added.
Proof.
  destruct (addTabs_appends batch w c Hok Hsame) as
    (added & Hrun & Htabs & Hids & Hvis & Hcol & Hord).
  { rewrite Hempty. simpl. rewrite app_nil_r. exact Hurls. }
  { rewrite Hempty. exact Hroom. }
  exists added. split; [exact Hrun|]. split.
  { apply (f_equal length) in Hids. rewrite !length_fmap in Hids. exact Hids. }
  unfold getTabsByCollection. rewrite Htabs.
  assert (live_in_collection c (tabs (state w) ++ added)%list = added) as ->.
  { rewrite <- live_in_collection_visible
      by (apply Forall_app; split; assumption).
    unfold in_collection. rewrite filter_app.
    fold (in_collection c (tabs (state w))). fold (in_collection c added).
    rewrite Hempty, (in_collection_all c added Hcol). reflexivity. }
  apply (Array_sort_of_sorted Tab.order).
  assert (forall k x, added !! k = Some x -> Tab.order x = Z.of_nat k) as Hk.
  { intros k x Hx. rewrite (Hord k x Hx).
    unfold in_collection. rewrite filter_app.
    fold (in_collection c (tabs (state w))).
    fold (in_collection c (take k added)).
    rewrite Hempty, (in_collection_all c (take k added))
      by apply Forall_take, Hcol.
    simpl. rewrite length_take. apply lookup_lt_Some in Hx. f_equal. lia. }
  clear - Hk. revert Hk.
  assert (forall (base : nat) (l : list Tab.t),
             (forall k x, l !! k = Some x -> Tab.order x = Z.of_nat (base + k)) ->
             StronglySorted (fun a b => Tab.order a <= Tab.order b) l) as G.
  { intros base l. revert base.
    induction l as [|a l IH]; intros base H; constructor.
    - apply (IH (S base)). intros k x Hx.
      rewrite (H (S k) x Hx). f_equal. lia.
    - apply Forall_forall. intros y Hy.
      apply list_elem_of_lookup in Hy as [j Hj].
      rewrite (H 0%nat a eq_refl), (H (S j) y Hj). lia. }
  intros Hk. apply (G 0%nat). exact Hk.
Qed.
End ListingAfterAdds.

Lemma listing_after_adds_is_call_order_witness :
  exists added,
    fst (TabStore.addTabs Sample.batch Sample.fresh) = Returned added
    /\ length added = 3%nat
    /\ TabStore.getTabsByCollection
         (state (snd (TabStore.addTabs Sample.batch Sample.fresh))) "research"
       = added.
Proof.
  apply (listing_after_adds_is_call_order Sample.fresh "research" Sample.batch).
  - reflexivity.
  - constructor.
  - reflexivity.
  - repeat constructor.
  - apply (bool_decide_unpack _). vm_compute. exact I.
  - apply Z.leb_le. reflexivity.
Defined.

Section ActiveSpace.
Import SpaceStore.

(** X19. [addSpace] appends the new space with an order equal to the
    number of published spaces.  Added to an empty list it becomes the
    active space, in memory and in the persisted pointer; added to a list
    that already holds a space it leaves the active space, in memory and
    persisted, as it was. *)
Theorem first_space_becomes_active
    (w : World t) (input : CreateSpaceInput.t) (uuid now : string)
    (Hok : local_ok w = true) :
  exists created,
    fst (addSpace input uuid now w) = Returned created
    /\ Space.id created = uuid
    /\ Space.order created = Z.of_nat (length (spaces (state w)))
    /\ spaces (state (snd (addSpace input uuid now w)))
       = (spaces (state w) ++ [created])%list
    /\ (spaces (state w) = [] ->
        activeSpaceId (state (snd (addSpace input uuid now w))) = Some uuid
        /\ activeSpace (state (snd (addSpace input uuid now w))) = Some created
        /\ Storage.active_space_id (local (snd (addSpace input uuid now w)))
           = Some uuid)
    /\ (spaces (state w) <> [] ->
        activeSpaceId (state (snd (addSpace input uuid now w)))
        = activeSpaceId (state w)
        /\ activeSpace (state (snd (addSpace input uuid now w)))
           = activeSpace (state w)
        /\ Storage.active_space_id (local (snd (addSpace input uuid now w)))
           = Storage.active_space_id (local w)).
Proof.
  unfold addSpace, setActiveSpace. run_action. rewrite ?Hok. simpl.
  rewrite length_app. simpl.
  destruct (spaces (state w)) as [|a l] eqn:E; simpl.
  - rewrite ?Hok. simpl. eexists. split; [reflexivity|].
    repeat split; try congruence.
    destruct (decide (uuid = uuid)); [reflexivity|congruence].
  - assert (Nat.eqb (length l + 1) 0 = false) as ->
      by (apply Nat.eqb_neq; lia).
    simpl. eexists. split; [reflexivity|].
    repeat split; try discriminate; reflexivity.
Qed.

Lemma filter_after_space_tombstones (l : list Space.t) id now :
  Forall visible l ->
  filter visible
         (List.map (fun x => if decide (Space.id x = id)
                             then tombstone x now else x) l)
  = filter (fun x => Space.id x <> id) l.
Proof.
  induction 1 as [|a l Ha Hl IH]; [reflexivity|].
  cbn [List.map]. rewrite !filter_cons, IH.
  destruct (decide (Space.id a = id)) as [E|E].
  - destruct (decide (visible (tombstone a now))) as [V|V]; [discriminate V|].
    destruct (decide (Space.id a <> id)); [tauto|reflexivity].
  - destruct (decide (visible a)); [|tauto].
    destruct (decide (Space.id a <> id)); [reflexivity|tauto].
Qed.

(** X20. Deleting the active space hands the role to the first space that
    remains published: that space becomes the active one in memory and in
    the persisted pointer.  When no space remains, the active space in
    memory becomes empty and the persisted pointer is left as it was. *)
Theorem deleting_active_space_hands_over
    (w : World t) (id now : string) (x : Space.t)
    (Hok : local_ok w = true)
    (Hclean : Forall visible (spaces (state w)))
    (Hin : x ∈ spaces (state w))
    (Hid : Space.id x = id)
    (Hactive : activeSpaceId (state w) = Some id) :
  let remaining := filter (fun y => Space.id y <> id) (spaces (state w)) in
  let after := snd (deleteSpace id now w) in
  spaces (state after) = remaining
  /\ activeSpace (state after) = head remaining
  /\ activeSpaceId (state after) = Space.id <$> head remaining
  /\ Storage.active_space_id (local after)
     = match head remaining with
       | Some y => Some (Space.id y)
       | None => Storage.active_space_id (local w)
       end.
Proof.
  intros remaining after. subst after.
  destruct (list_find_elem_of (fun y => Space.id y = id)
              (spaces (state w)) x Hin Hid) as [p E].
  unfold deleteSpace, setActiveSpace. run_action. rewrite E. simpl.
  rewrite ?Hok. simpl.
  rewrite (filter_after_space_tombstones _ id now Hclean). fold remaining.
  destruct (decide (activeSpaceId (state w) = Some id)); [|contradiction].
  destruct remaining as [|y rest]; simpl.
  - repeat split.
  - rewrite ?Hok. simpl. repeat split.
    destruct (decide (Space.id y = Space.id y)); [reflexivity|congruence].
Qed.

(** X21. The persisted pointer outlives the last space.  When the only
    published space is the active one, with the persisted pointer naming
    it, and it is deleted, the next load publishes no space and yet
    restores the deleted record as the active space. *)
Theorem deleted_last_space_is_active_after_reload
    (w : World t) (id now : string) (x : Space.t)
    (Hok : local_ok w = true)
    (Hvisible : visible x)
    (Honly : spaces (state w) = [x])
    (Hid : Space.id x = id)
    (Hactive : activeSpaceId (state w) = Some id)
    (Hpointer : Storage.active_space_id (local w) = Some id) :
  let reloaded := state (snd (loadSpaces (snd (deleteSpace id now w)))) in
  spaces reloaded = []
  /\ activeSpaceId reloaded = Some id
  /\ activeSpace reloaded = Some (tombstone x now)
  /\ Space.is_deleted (tombstone x now) = Some true.
Proof.
  unfold loadSpaces, deleteSpace, setActiveSpace. run_action.
  rewrite Honly. simpl.
  destruct (decide (Space.id x = id)); [|contradiction]. simpl.
  rewrite ?Hok. simpl.
  rewrite filter_cons.
  destruct (decide (visible (tombstone x now))) as [V|V]; [discriminate V|].
  simpl.
  destruct (decide (activeSpaceId (state w) = Some id)); [|contradiction].
  simpl. rewrite ?Hok. simpl. rewrite filter_cons.
  destruct (decide (visible (tombstone x now))); [contradiction|].
  rewrite Hpointer. simpl.
  destruct (decide (Space.id x = id)); [|contradiction].
  repeat split.
Qed.
End ActiveSpace.

Lemma first_space_becomes_active_witness :
  SpaceStore.activeSpaceId
    (state (snd (SpaceStore.addSpace (CreateSpaceInput.mk "Work" None None None)
                   "space-w" "2024-02-01T10:00:00.000Z"
                   (Sample.space_world []))))
  = Some "space-w".
Proof.
  destruct (first_space_becomes_active (Sample.space_world [])
              (CreateSpaceInput.mk "Work" None None None)
              "space-w" "2024-02-01T10:00:00.000Z" eq_refl)
    as (created & _ & _ & _ & _ & Hfirst & _).
  apply Hfirst. reflexivity.
Defined.

Lemma deleting_active_space_hands_over_witness :
  SpaceStore.activeSpace
    (state (snd (SpaceStore.deleteSpace "space-a" "2024-02-01T10:00:00.000Z"
                   (Sample.space_world
                      [Sample.space "a" 0; Sample.space "b" 1]))))
  = Some (Sample.space "b" 1).
Proof.
  refine (proj1 (proj2 (deleting_active_space_hands_over
                   (Sample.space_world [Sample.space "a" 0; Sample.space "b" 1])
                   "space-a" "2024-02-01T10:00:00.000Z" (Sample.space "a" 0)
                   eq_refl _ _ eq_refl eq_refl))).
  - repeat constructor.
  - apply list_elem_of_here.
Defined.

Lemma deleted_last_space_is_active_after_reload_witness :
  SpaceStore.activeSpace
    (state (snd (SpaceStore.loadSpaces
                   (snd (SpaceStore.deleteSpace "space-a"
                           "2024-02-01T10:00:00.000Z"
                           (Sample.space_world [Sample.space "a" 0]))))))
  = Some (SpaceStore.tombstone (Sample.space "a" 0)
                               "2024-02-01T10:00:00.000Z").
Proof.
  apply (deleted_last_space_is_active_after_reload
           (Sample.space_world [Sample.space "a" 0]) "space-a"
           "2024-02-01T10:00:00.000Z" (Sample.space "a" 0));
    reflexivity.
Defined.

Section NoCascade.

Lemma deleteSpace_frame (w : World SpaceStore.t) id now :
  Storage.collections (local (snd (SpaceStore.deleteSpace id now w)))
  = Storage.collections (local w)
  /\ Storage.tabs (local (snd (SpaceStore.deleteSpace id now w)))
     = Storage.tabs (local w).
Proof.
  unfold SpaceStore.deleteSpace, SpaceStore.setActiveSpace. run_action.
  destruct (list_find _ _); simpl; [|split; reflexivity].
  destruct (local_ok w) eqn:Hok; simpl; [|split; reflexivity].
  destruct (decide (SpaceStore.activeSpaceId (state w) = Some id)); simpl;
    [|split; reflexivity].
  destruct (filter SpaceStore.visible _); simpl; rewrite ?Hok; simpl;
    split; reflexivity.
Qed.

Lemma deleteCollection_frame (w : World CollectionStore.t) id now :
  Storage.tabs (local (snd (CollectionStore.deleteCollection id now w)))
  = Storage.tabs (local w).
Proof.
  unfold CollectionStore.deleteCollection. run_action.
  destruct (list_find _ _); simpl; [|reflexivity].
  destruct (local_ok w); reflexivity.
Qed.

(** X22. Deleting a parent does not touch its children.  [deleteSpace]
    changes no collection and no tab, published or stored, so the
    collections of the deleted space are listed as before; and
    [deleteCollection] changes no tab, published or stored, so the tabs of
    the deleted collection are listed as before. *)
Theorem deleting_a_parent_keeps_its_children
    (a : App.t) (id now : string) :
  let a1 := App.step a (App.deleteSpace id now) in
  let a2 := App.step a (App.deleteCollection id now) in
  (App.collectionStore a1 = App.collectionStore a
   /\ App.tabStore a1 = App.tabStore a
   /\ Storage.collections (App.chrome_local a1)
      = Storage.collections (App.chrome_local a)
   /\ Storage.tabs (App.chrome_local a1) = Storage.tabs (App.chrome_local a)
   /\ CollectionStore.getCollectionsBySpace (App.collectionStore a1) id
      = CollectionStore.getCollectionsBySpace (App.collectionStore a) id)
  /\ (App.tabStore a2 = App.tabStore a
      /\ Storage.tabs (App.chrome_local a2) = Storage.tabs (App.chrome_local a)
      /\ TabStore.getTabsByCollection (App.tabStore a2) id
         = TabStore.getTabsByCollection (App.tabStore a) id).
Proof.
  simpl. unfold App.on_spaces, App.on_collections. simpl.
  pose proof (deleteSpace_frame
                (mkWorld (App.spaceStore a) (App.chrome_local a) (App.chrome_ok a))
                id now) as [Hc Ht].
  pose proof (deleteCollection_frame
                (mkWorld (App.collectionStore a) (App.chrome_local a)
                         (App.chrome_ok a))
                id now) as Ht'.
  simpl in Hc, Ht, Ht'. repeat split; assumption.
Qed.
End NoCascade.

Section SaveForm.
Import TabStore SaveTabForm.

Lemma addTab_throw_unchanged (w : World TabStore.t) input uuid now e w' :
  addTab input uuid now w = (Threw e, w') -> w' = w.
Proof.
  unfold addTab, updateTab. run_action.
  destruct (_ <=? _); [intros [= _ <-]; reflexivity|].
  destruct (list_find _ _) as [[i x]|].
  - destruct (list_find _ (tabs (state w))) as [[j y]|]; simpl.
    + destruct (local_ok w); simpl; [discriminate|].
      intros [= _ <-]; reflexivity.
    + intros [= _ <-]; reflexivity.
  - destruct (local_ok w); simpl; [discriminate|].
    intros [= _ <-]; reflexivity.
Qed.

(** X23. [handleSave] never throws, and what it does is settled by its
    guard and by [addTab].  When the current tab has no URL (none, or the
    empty one) or no collection is selected, it changes nothing and leaves
    the form as it was.  Otherwise it calls [addTab] once, for the selected
    collection, with the tab's URL and favicon and its title, ["Untitled"]
    for a missing or empty one: when that call returns, the store and the
    storage area are as [addTab] left them and the form reports success with
    the saving flag cleared; when it throws, the store and the storage area
    are unchanged, the saving flag is cleared and the success flag is as it
    was. *)
Theorem handleSave_never_throws
    (w : World TabStore.t) (currentTab : option ChromeTab)
    (selectedCollectionId uuid now : string) (form : SaveTabForm.t) :
  let r := handleSave currentTab selectedCollectionId uuid now form w in
  (exists form', fst r = Returned form')
  /\ (JS.truthy_string (currentTab ≫= url) = false
      \/ selectedCollectionId = "" ->
      r = (Returned form, w))
  /\ (forall u,
        currentTab ≫= url = Some u -> u <> "" -> selectedCollectionId <> "" ->
        let input :=
          CreateTabInput.mk selectedCollectionId
            (JS.or_string (currentTab ≫= title) "Untitled") u
            (currentTab ≫= favIconUrl) None None in
        (forall saved w',
            addTab input uuid now w = (Returned saved, w') ->
            r = (Returned (SaveTabForm.mk false true), w'))
        /\ (forall e w',
              addTab input uuid now w = (Threw e, w') ->
              r = (Returned (SaveTabForm.mk false (saveSuccess form)), w))).
Proof.
  unfold handleSave. cbv zeta. split; [|split].
  - destruct (negb _ || negb _); [exists form; reflexivity|].
    unfold try_catch, bind.
    destruct (addTab _ uuid now w) as [[saved|e] w']; simpl; eauto.
  - intros [H|H].
    + rewrite H. reflexivity.
    + subst selectedCollectionId. simpl. rewrite orb_true_r. reflexivity.
  - intros u Hu Hne Hc. rewrite Hu.
    assert (JS.truthy_string (Some u) = true) as ->
      by (destruct u; [congruence|reflexivity]).
    assert (JS.truthy_string (Some selectedCollectionId) = true) as ->
      by (destruct selectedCollectionId; [congruence|reflexivity]).
    simpl. unfold try_catch, bind. split.
    + intros saved w' E. rewrite E. reflexivity.
    + intros e w' E. rewrite E. simpl.
      rewrite (addTab_throw_unchanged _ _ _ _ _ _ E). reflexivity.
Qed.

(** X24. Saving the same page twice keeps one tab.  With room for two
    more tabs in the selected collection, a fresh identifier and a URL that
    is not in the collection yet, two saves of that URL leave the published
    list one tab longer than before: the tab created by the first save,
    with its identifier, order and creation stamp, carrying the title and
    favicon of the second save; both saves report success. *)
Theorem saving_twice_keeps_one_tab
    (w : World TabStore.t) (u : string) (first second : ChromeTab)
    (collection uuid1 uuid2 now1 now2 : string) (form : SaveTabForm.t)
    (Hok : local_ok w = true)
    (Hurl1 : url first = Some u)
    (Hurl2 : url second = Some u)
    (Hu : u <> "")
    (Hc : collection <> "")
    (Hfresh : Forall (fun y => Tab.id y <> uuid1) (tabs (state w)))
    (Hnew : Forall (fun y => Tab.url y <> u)
                   (in_collection collection (tabs (state w))))
    (Hroom : Z.of_nat (length (in_collection collection (tabs (state w)))) + 1
             < MAX_TABS_PER_COLLECTION) :
  let r1 := handleSave (Some first) collection uuid1 now1 form w in
  let r2 := handleSave (Some second) collection uuid2 now2
                       (SaveTabForm.mk false true) (snd r1) in
  fst r1 = Returned (SaveTabForm.mk false true)
  /\ fst r2 = Returned (SaveTabForm.mk false true)
  /\ tabs (state (snd r2))
     = (tabs (state w)
        ++ [ {| Tab.id := uuid1;
                Tab.collection_id := collection;
                Tab.title := JS.or_string (title second) "Untitled";
                Tab.url := u;
                Tab.favicon := favIconUrl second;
                Tab.description := None;
                Tab.order :=
                  Z.of_nat (length (in_collection collection (tabs (state w))));
                Tab.tags := None;
                Tab.created_at := now1;
                Tab.updated_at := now2;
                Tab.synced_at := None;
                Tab.is_deleted := None;
                Tab.meta := None |} ])%list
  /\ Storage.tabs (local (snd r2)) = Some (tabs (state (snd r2))).
Proof.
  intros r1 r2.
  assert (JS.truthy_string (Some u) = true) as Tu
    by (destruct u; [congruence|reflexivity]).
  assert (JS.truthy_string (Some collection) = true) as Tc
    by (destruct collection; [congruence|reflexivity]).
  set (input1 := CreateTabInput.mk collection
                   (JS.or_string (title first) "Untitled") u
                   (favIconUrl first) None None).
  set (input2 := CreateTabInput.mk collection
                   (JS.or_string (title second) "Untitled") u
                   (favIconUrl second) None None).
  set (created := newTab input1 uuid1 now1
                    (length (in_collection collection (tabs (state w))))).
  set (w1 := mkWorld (with_tabs (tabs (state w) ++ [created])%list (state w))
               (Storage.set_tabs (tabs (state w) ++ [created])%list (local w))
               (local_ok w)).
  assert (addTab input1 uuid1 now1 w = (Returned created, w1)) as A1.
  { apply (addTab_fresh w input1 uuid1 now1 Hok); [simpl; lia|exact Hnew]. }
  assert (r1 = (Returned (SaveTabForm.mk false true), w1)) as R1.
  { unfold r1, handleSave.
    change (Some first ≫= url) with (url first).
    change (Some first ≫= title) with (title first).
    change (Some first ≫= favIconUrl) with (favIconUrl first).
    rewrite Hurl1, Tu, Tc. simpl.
    unfold try_catch, bind. fold input1. rewrite A1. reflexivity. }
  set (merged := spread created
                   (UpdateTabInput.mk (Some (CreateTabInput.title input2)) None
                      (Some (CreateTabInput.favicon input2)) None None None None)
                   now2).
  set (w2 := mkWorld (with_tabs (tabs (state w) ++ [merged])%list (state w1))
               (Storage.set_tabs (tabs (state w) ++ [merged])%list (local w1))
               (local_ok w1)).
  assert (addTab input2 uuid2 now2 w1 = (Returned merged, w2)) as A2.
  { unfold addTab, bind at 1, get. simpl.
    rewrite (in_collection_snoc collection (tabs (state w)) created eq_refl).
    rewrite length_app. simpl.
    assert ((MAX_TABS_PER_COLLECTION
             <=? Z.of_nat (length (in_collection collection (tabs (state w))) + 1))
            = false) as -> by (apply Z.leb_gt; lia).
    rewrite (list_find_app_r _ _ _ (proj2 (list_find_None _ _) Hnew)).
    simpl. destruct (decide (u = u)); [|contradiction]. simpl.
    assert (list_find (fun y => Tab.id y = uuid1) (tabs (state w1))
            = Some (length (tabs (state w)), created)) as F.
    { simpl. rewrite (list_find_app_r _ _ _ (proj2 (list_find_None _ _) Hfresh)).
      simpl. destruct (decide (uuid1 = uuid1)); [|contradiction]. reflexivity. }
    rewrite (updateTab_found w1 uuid1 _ now2 _ created F Hok).
    assert (forall m : Tab.t,
               <[length (tabs (state w)) := m]>
                 (tabs (state w) ++ [created])%list
               = (tabs (state w) ++ [m])%list) as Hins.
    { intros m.
      replace (length (tabs (state w))) with (length (tabs (state w)) + 0)%nat
        by lia.
      rewrite insert_app_r. reflexivity. }
    unfold w2. simpl. rewrite Hins. reflexivity. }
  assert (r2 = (Returned (SaveTabForm.mk false true), w2)) as R2.
  { unfold r2. rewrite R1. unfold handleSave.
    change (Some second ≫= url) with (url second).
    change (Some second ≫= title) with (title second).
    change (Some second ≫= favIconUrl) with (favIconUrl second).
    rewrite Hurl2, Tu, Tc. simpl.
    unfold try_catch, bind. fold input2. rewrite A2. reflexivity. }
  rewrite R1, R2. simpl. repeat split.
Qed.
End SaveForm.

Lemma saving_twice_keeps_one_tab_witness :
  length (TabStore.tabs
            (state (snd (SaveTabForm.handleSave (Some (Sample.page "a" "A again"))
                           "research" "id-2" "2024-02-01T10:00:05.000Z"
                           (SaveTabForm.mk false true)
                           (snd (SaveTabForm.handleSave
                                   (Some (Sample.page "a" "A"))
                                   "research" "id-1" "2024-02-01T10:00:00.000Z"
                                   (SaveTabForm.mk false false)
                                   Sample.fresh))))))
  = 1%nat.
Proof.
  destruct (saving_twice_keeps_one_tab Sample.fresh "https://example.test/a"
              (Sample.page "a" "A") (Sample.page "a" "A again")
              "research" "id-1" "id-2" "2024-02-01T10:00:00.000Z"
              "2024-02-01T10:00:05.000Z" (SaveTabForm.mk false false))
    as (_ & _ & Htabs & _).
  - reflexivity.
  - reflexivity.
  - reflexivity.
  - discriminate.
  - discriminate.
  - constructor.
  - constructor.
  - apply Z.ltb_lt. reflexivity.
  - rewrite Htabs. reflexivity.
Defined.

Section MoveBetweenCollections.
Import TabStore.

Lemma filter_insert_count {A : Type} (P : A -> Prop)
    `{!forall x, Decision (P x)} (l : list A) (i : nat) (x y : A) :
  l !! i = Some x ->
  (length (filter P (<[i := y]> l)) + (if decide (P x) then 1 else 0)
   = length (filter P l) + (if decide (P y) then 1 else 0))%nat.
Proof.
  revert i. induction l as [|a l IH]; intros [|i] Hi; simpl in *;
    try discriminate.
  - injection Hi as ->. rewrite !filter_cons.
    destruct (decide (P y)), (decide (P x)); simpl; lia.
  - rewrite !filter_cons. specialize (IH i Hi).
    destruct (decide (P a)); simpl; lia.
Qed.

(** X25. Moving a tab to another collection that has room rewrites the
    tab in place with the new parent and an order equal to the number of
    tabs the destination held; the destination then holds one tab more and
    the collection the tab came from one tab less. *)
Theorem moveTab_to_other_collection
    (w : World t) (id target now : string) (i : nat) (x : Tab.t)
    (Hok : local_ok w = true)
    (Hfind : list_find (fun y => Tab.id y = id) (tabs (state w)) = Some (i, x))
    (Hother : Tab.collection_id x <> target)
    (Hroom : Z.of_nat (length (in_collection target (tabs (state w))))
             < MAX_TABS_PER_COLLECTION) :
  let moved :=
    {| Tab.id := Tab.id x;
       Tab.collection_id := target;
       Tab.title := Tab.title x;
       Tab.url := Tab.url x;
       Tab.favicon := Tab.favicon x;
       Tab.description := Tab.description x;
       Tab.order := Z.of_nat (length (in_collection target (tabs (state w))));
       Tab.tags := Tab.tags x;
       Tab.created_at := Tab.created_at x;
       Tab.updated_at := now;
       Tab.synced_at := Tab.synced_at x;
       Tab.is_deleted := Tab.is_deleted x;
       Tab.meta := Tab.meta x |} in
  let after := <[i := moved]> (tabs (state w)) in
  moveTab id target now w
  = (Returned tt,
     mkWorld (with_tabs after (state w)) (Storage.set_tabs after (local w))
             (local_ok w))
  /\ length (in_collection target after)
     = S (length (in_collection target (tabs (state w))))
  /\ S (length (in_collection (Tab.collection_id x) after))
     = length (in_collection (Tab.collection_id x) (tabs (state w))).
Proof.
  intros moved after.
  pose proof Hfind as (Hlook & _ & _)%list_find_Some.
  split; [|split].
  - unfold moveTab, bind at 1, get. simpl. rewrite Hfind.
    apply Z.ltb_lt in Hroom. rewrite Z.leb_antisym, Hroom. simpl.
    unfold bind. rewrite (updateTab_found w id _ now i x Hfind Hok).
    reflexivity.
  - pose proof (filter_insert_count (fun y => Tab.collection_id y = target)
                  (tabs (state w)) i x moved Hlook) as H.
    destruct (decide (Tab.collection_id x = target)); [contradiction|].
    destruct (decide (Tab.collection_id moved = target)); [|contradiction].
    unfold in_collection, after. lia.
  - pose proof (filter_insert_count
                  (fun y => Tab.collection_id y = Tab.collection_id x)
                  (tabs (state w)) i x moved Hlook) as H.
    destruct (decide (Tab.collection_id x = Tab.collection_id x));
      [|contradiction].
    destruct (decide (Tab.collection_id moved = Tab.collection_id x)) as [E|E];
      [simpl in E; congruence|].
    unfold in_collection, after. lia.
Qed.
End MoveBetweenCollections.

Lemma moveTab_to_other_collection_witness :
  length (TabStore.in_collection "reading"
            (TabStore.tabs
               (state (snd (TabStore.moveTab "tab-1" "reading"
                              "2024-02-01T10:00:00.000Z" (Sample.world 3))))))
  = 1%nat.
Proof.
  destruct (moveTab_to_other_collection (Sample.world 3) "tab-1" "reading"
              "2024-02-01T10:00:00.000Z" 1 (Sample.tab 1 "research"))
    as (Hrun & Hin & _).
  - reflexivity.
  - vm_compute. reflexivity.
  - discriminate.
  - apply Z.ltb_lt. vm_compute. reflexivity.
  - rewrite Hrun. exact Hin.
Defined.

(** X26. The three load functions never throw.  When the storage area
    rejects the read they keep the published list, set the store's error
    message and clear the loading flag; when it accepts the read they
    publish the non-deleted records of the stored list, an absent key
    counting as an empty list, with no error and the loading flag cleared. *)
Theorem loads_never_throw :
  (forall w : World TabStore.t,
      fst (TabStore.loadTabs w) = Returned tt
      /\ state (snd (TabStore.loadTabs w))
         = if local_ok w
           then TabStore.mk
                  (filter TabStore.visible
                          (default [] (Storage.tabs (local w))))
                  false None
           else TabStore.mk (TabStore.tabs (state w)) false
                            (Some "Failed to load tabs"))
  /\ (forall w : World CollectionStore.t,
        fst (CollectionStore.loadCollections w) = Returned tt
        /\ state (snd (CollectionStore.loadCollections w))
           = if local_ok w
             then CollectionStore.mk
                    (filter CollectionStore.visible
                            (default [] (Storage.collections (local w))))
                    false None
             else CollectionStore.mk (CollectionStore.collections (state w))
                                     false (Some "Failed to load collections"))
  /\ (forall w : World SpaceStore.t,
        fst (SpaceStore.loadSpaces w) = Returned tt
        /\ SpaceStore.spaces (state (snd (SpaceStore.loadSpaces w)))
           = (if local_ok w
              then filter SpaceStore.visible
                          (default [] (Storage.spaces (local w)))
              else SpaceStore.spaces (state w))
        /\ SpaceStore.error (state (snd (SpaceStore.loadSpaces w)))
           = (if local_ok w then None else Some "Failed to load spaces")
        /\ SpaceStore.isLoading (state (snd (SpaceStore.loadSpaces w))) = false).
Proof.
  split; [|split]; intros w.
  - unfold TabStore.loadTabs. run_action.
    destruct (local_ok w); simpl; split; reflexivity.
  - unfold CollectionStore.loadCollections. run_action.
    destruct (local_ok w); simpl; split; reflexivity.
  - unfold SpaceStore.loadSpaces. run_action.
    destruct (local_ok w); simpl; repeat split; reflexivity.
Qed.

Lemma logout_blocks_protected_requests_witness :
  ApiClient.request Json.truthy Sample.stringify_stub (Json.Object [])
    (fun m => Json.Object [("message", Json.String m)]) Sample.network_ok
    "http://localhost:8000" "GET" "/api/v1/spaces" None
    (ApiClient.mk_options (Some true))
    (state (snd (AuthStore.logout
                   (snd (AuthStore.setAuth Sample.user "token" 3600 1000
                           Sample.signed_out)))))
    2000
  = (inl (ApiClient.ApiError 401
            (Json.Object [("message", Json.String "Not authenticated")])),
     []).
Proof.
  apply (logout_blocks_protected_requests Json.truthy Sample.stringify_stub
           (Json.Object [])
           (fun m => Json.Object [("message", Json.String m)])
           Sample.network_ok
           (snd (AuthStore.setAuth Sample.user "token" 3600 1000
                   Sample.signed_out)));
    reflexivity.
Defined.

Lemma public_request_sends_no_credentials_witness :
  snd (ApiClient.request Json.truthy Sample.stringify_stub (Json.Object [])
         (fun m => Json.Object [("message", Json.String m)])
         Sample.network_unprocessable
         "http://localhost:8000" "POST" "/auth/v1/register"
         (Some (Json.Object [("email", Json.String "ada@example.test")]))
         ApiClient.no_options
         (state (snd (AuthStore.setAuth Sample.user "token" 3600 1000
                        Sample.signed_out)))
         2000)
  = [ ApiClient.mk_call "http://localhost:8000/auth/v1/register"
        (ApiClient.mk_init "POST" [("Content-Type", "application/json")]
           (Some "{...}")) ].
Proof.
  apply (public_request_sends_no_credentials Json.truthy Sample.stringify_stub
           (Json.Object [])
           (fun m => Json.Object [("message", Json.String m)])
           Sample.network_unprocessable
           "http://localhost:8000" "POST" "/auth/v1/register"
           (Some (Json.Object [("email", Json.String "ada@example.test")]))
           ApiClient.no_options).
  reflexivity.
Defined.
